(** * Fireboom hook server (sdk-template_js-client): dispatch core

    A shallow embedding of [src/server.ts], [src/health.ts] and
    [src/proxy.ts]: the correlation-id generator, the proxy registry, the
    health report, the request-context hook, the extension loader and the
    shutdown handler, with the properties the specification states about
    them. *)

From stdpp Require Import gmap strings list pretty.

Local Open Scope string_scope.
Local Open Scope Z_scope.
Local Open Scope list_scope.

(** ** JavaScript values and abrupt completions *)

Module Js.

(** The values a parsed request body or a reply can hold. Numbers are
    never inspected by the code below, so only integral ones are
    represented. *)
#[warnings="-register-all"]
Inductive Value : Type :=
| Undefined
| Null
| Bool (b : bool)
| Num (n : Z)
| Str (s : string)
| Arr (l : list Value)
| Obj (o : gmap string Value).

(** A thrown [Error]: its [name], its [message], and the optional
    [statusCode] property that HTTP errors carry. *)
Record Error : Type := mkError {
  name : string;
  message : string;
  statusCode : option Z
}.

Definition TypeError (msg : string) : Error :=
  {| name := "TypeError"; message := msg; statusCode := None |}.

(** A computation that returns normally or throws. *)
Definition Completion (A : Type) : Type := Error + A.

Definition ret {A} (a : A) : Completion A := inr a.
Definition throw {A} (e : Error) : Completion A := inl e.
Definition bind {A B} (c : Completion A) (k : A → Completion B) : Completion B :=
  match c with
  | inl e => inl e
  | inr a => k a
  end.

Definition completed {A} (c : Completion A) : bool :=
  match c with
  | inl _ => false
  | inr _ => true
  end.

(** [v.k] for a property name [k] that no builtin prototype defines
    (the three names read by the server are [__wg], [clientRequest] and
    [user]): reading a property of [undefined] or [null] throws a
    [TypeError]; an object yields its own property or [undefined]; every
    other value yields [undefined]. *)
Definition get (v : Value) (k : string) : Completion Value :=
  match v with
  | Undefined =>
      throw (TypeError ("Cannot read properties of undefined (reading '" +:+ k +:+ "')"))
  | Null =>
      throw (TypeError ("Cannot read properties of null (reading '" +:+ k +:+ "')"))
  | Obj o => ret (default Undefined (o !! k))
  | _ => ret Undefined
  end.

(** [undefined] and [null], the values without properties. *)
Definition nullish (v : Value) : bool :=
  match v with
  | Undefined | Null => true
  | _ => false
  end.

(** [++n] on a number that holds a non-negative integer: IEEE doubles
    represent every integer up to [2^53] exactly, and [2^53 + 1] rounds
    (ties to even) back to [2^53]. *)
Definition MAX_EXACT : Z := 2 ^ 53.

Definition pre_increment (n : Z) : Z :=
  if decide (n < MAX_EXACT) then n + 1 else n.

(** [`${n}`] for an integer below [10^21]: its decimal digits. *)
Definition number_to_string (n : Z) : string := pretty n.

(** [Array.prototype.toString], that is [join(",")], on strings. *)
Definition join_comma (l : list string) : string := String.concat "," l.

End Js.

(** [x ← c; k] sequences two computations and stops at the first throw. *)
#[global] Instance completion_ret : MRet Js.Completion := @Js.ret.
#[global] Instance completion_bind : MBind Js.Completion := λ A B k c, Js.bind c k.

(** ** Correlation ids: [genReqId] of [server.ts] *)

Module ReqId.

(** A value of [IncomingHttpHeaders]: [string | string[]]; an absent
    header is [undefined]. *)
Inductive HeaderValue : Type :=
| HString (s : string)
| HArray (l : list string).

Abbreviation Headers := (gmap string HeaderValue).

(** JavaScript truthiness of [req.headers[k]]: [undefined] and the empty
    string are falsy, every array is truthy. *)
Definition truthy (h : option HeaderValue) : bool :=
  match h with
  | None => false
  | Some (HString s) => negb (String.eqb s "")
  | Some (HArray _) => true
  end.

Definition toString (v : HeaderValue) : string :=
  match v with
  | HString s => s
  | HArray l => Js.join_comma l
  end.

(** The closure variable [let id = 0] of [startServer]. *)
Definition initial_id : Z := 0.

(** [genReqId]: the result and the new value of [id]. In the first branch
    the header is known to be defined, so [?.toString()] is [toString]. *)
Definition genReqId (headers : Headers) (id : Z) : string * Z :=
  match headers !! "x-request-id" with
  | Some v =>
      if truthy (Some v) then (toString v, id)
      else let id' := Js.pre_increment id in (Js.number_to_string id', id')
  | None =>
      let id' := Js.pre_increment id in (Js.number_to_string id', id')
  end.

(** How the server built at lines 22-31 gives a request its id. The
    options name no [requestIdHeader], so Fastify (up to version 4, the
    versions that have the [reply.getResponseTime] of line 41) keeps its
    default ['request-id'] and takes [req.headers['request-id'] ||
    genReqId(req)]: a truthy [request-id] header is the id as it is, and
    [genReqId] is called for the other requests only. *)
Definition request_id (headers : Headers) (id : Z) : HeaderValue * Z :=
  match headers !! "request-id" with
  | Some v =>
      if truthy (Some v) then (v, id)
      else let '(rid, id') := genReqId headers id in (HString rid, id')
  | None => let '(rid, id') := genReqId headers id in (HString rid, id')
  end.

(** The ids given to a sequence of requests, in arrival order. *)
Fixpoint serve (reqs : list Headers) (id : Z) : list HeaderValue :=
  match reqs with
  | [] => []
  | h :: rest => let '(rid, id') := request_id h id in rid :: serve rest id'
  end.

(** Whether the request brings an id in one of the two headers. *)
Definition brings_id (h : Headers) : bool :=
  truthy (h !! "request-id") || truthy (h !! "x-request-id").

(** How many of the requests get a generated id. *)
Definition generated (reqs : list Headers) : nat :=
  length (filter (λ h, brings_id h = false) reqs).

End ReqId.

(** ** Requests, contexts and routes *)

Module Fastify.

(** The process-wide logger of [./logger]; only its identity matters. *)
Inductive Logger : Type := logger.

(** [@web-std/fetch], passed to the client as [customFetch]. *)
Inductive Fetch : Type := fetch.

(** Modelled from the spec: [./operations.client] is not under [src/];
    the platform client is "an opaque capability ... with its own
    timeout", so [new OperationsClient(options)] is taken to hold the
    options it was given. *)
Record OperationsClient : Type := new_OperationsClient {
  baseURL : string;
  customFetch : Fetch;
  requestTimeoutMs : Z;
  oc_clientRequest : Js.Value
}.

(** The object assigned to [req.ctx]. *)
Record RequestContext : Type := mkContext {
  ctx_logger : Logger;
  user : Js.Value;
  clientRequest : Js.Value;
  operationsClient : OperationsClient
}.

(** The part of a Fastify request the repository reads. [ctx] is the
    decoration added by [decorateRequest('ctx', null)]: [None] is [null]. *)
Record FastifyRequest : Type := mkRequest {
  body : Js.Value;
  headers : ReqId.Headers;
  method : string;
  query : Js.Value;
  ctx : option RequestContext
}.

(** The reply under construction: status code and payload. *)
Record FastifyReply : Type := mkReply {
  reply_statusCode : Z;
  reply_payload : Js.Value
}.

Definition fresh_reply : FastifyReply :=
  {| reply_statusCode := 200; reply_payload := Js.Undefined |}.

(** The options object given to [fastify.route]. *)
Record RouteOptions : Type := mkRoute {
  route_method : list string;
  route_url : string;
  route_config : Js.Value;
  route_handler : FastifyRequest → FastifyReply → Js.Completion FastifyReply
}.

(** What the repository needs from a Fastify instance: [route] adds a
    route, or throws and leaves the instance as it was. *)
Class FastifyInstance (F : Type) : Type := {
  route : RouteOptions → F → Js.Completion F
}.

(** A concrete instance: the routes in registration order; declaring a
    method twice for one url throws, as Fastify's router does. *)
Definition RouteTable : Type := list RouteOptions.

Definition clashes (o : RouteOptions) (r : RouteOptions) : bool :=
  String.eqb (route_url o) (route_url r)
  && existsb (λ m, existsb (String.eqb m) (route_method r)) (route_method o).

Definition table_route (o : RouteOptions) (t : RouteTable) : Js.Completion RouteTable :=
  if existsb (clashes o) t
  then Js.throw {| Js.name := "FastifyError";
                   Js.message := "Method already declared for route '" +:+ route_url o +:+ "'";
                   Js.statusCode := Some 500 |}
  else Js.ret (t ++ [o]).

#[global] Instance table_instance : FastifyInstance RouteTable :=
  {| route := table_route |}.

End Fastify.

(** ** The proxy registry: [proxy.ts] *)

Module Proxy.
Import Fastify.

(** The view of the request a proxy handler receives. *)
Record Request : Type := mkProxyRequest {
  req_body : Js.Value;
  req_headers : ReqId.Headers;
  req_method : string;
  req_query : Js.Value
}.

Record ProxyConfig : Type := mkProxyConfig {
  handler : Request → option RequestContext → FastifyReply → Js.Completion FastifyReply
}.

(** The module variables [fastify] and [proxyNameList]; both are
    [undefined] until the plugin runs. *)
Record State (F : Type) : Type := mkState {
  fastify : option F;
  proxyNameList : option (list string)
}.
Arguments mkState {F} _ _.
Arguments fastify {F} _.
Arguments proxyNameList {F} _.

Definition unloaded {F} : State F := mkState None None.

Section WithInstance.
Context {F : Type} `{FastifyInstance F}.

(** [Endpoint.Proxy] of [./types/server] and [replaceUrl] of [./utils]
    are not under [src/]; they are taken as given. *)
Variable Endpoint_Proxy : string.
Variable replaceUrl : string → gmap string string → string.

(** The route handler built by [registerProxyHandler]. *)
Definition proxy_route_handler (config : ProxyConfig)
    (req : FastifyRequest) (reply : FastifyReply) : Js.Completion FastifyReply :=
  let request := {| req_body := body req; req_headers := headers req;
                    req_method := method req; req_query := query req |} in
  handler config request (ctx req) reply.

Definition proxy_route (path : string) (config : ProxyConfig) : RouteOptions :=
  let routeUrl := replaceUrl Endpoint_Proxy {["path" := path]} in
  {| route_method := ["GET"; "POST"];
     route_url := routeUrl;
     route_config := Js.Obj {["kind" := Js.Str "proxy"; "proxyPath" := Js.Str path]};
     route_handler := proxy_route_handler config |}.

(** [registerProxyHandler]: the completion of the call (a rejected
    promise is a throw) and the module state after it. *)
Definition registerProxyHandler (path : string) (config : ProxyConfig)
    (st : State F) : Js.Completion () * State F :=
  match fastify st with
  | None =>
      (Js.throw (Js.TypeError "Cannot read properties of undefined (reading 'route')"), st)
  | Some f =>
      match route (proxy_route path config) f with
      | inl e => (Js.throw e, st)
      | inr f' =>
          match proxyNameList st with
          | None =>
              (Js.throw (Js.TypeError "Cannot read properties of undefined (reading 'push')"),
               mkState (Some f') None)
          | Some names => (Js.ret (), mkState (Some f') (Some (names ++ [path])))
          end
      end
  end.

(** [FireboomProxiesPlugin] (spelled [FireboomProxiesPlugun] where
    [server.ts] imports it): binds the instance and starts an empty list. *)
Definition FireboomProxiesPlugin (_fastify : F) (st : State F) : State F :=
  mkState (Some _fastify) (Some []).

Definition getproxyNameList (st : State F) : option (list string) :=
  proxyNameList st.

(** A sequence of register calls: whether each one completed, and the
    final state. *)
Fixpoint register_all (calls : list (string * ProxyConfig)) (st : State F)
    : list bool * State F :=
  match calls with
  | [] => ([], st)
  | (path, config) :: rest =>
      let '(c, st') := registerProxyHandler path config st in
      let '(oks, st'') := register_all rest st' in
      (Js.completed c :: oks, st'')
  end.

(** The names of the calls that completed, in call order. *)
Fixpoint succeeded (calls : list (string * ProxyConfig)) (oks : list bool) : list string :=
  match calls, oks with
  | (path, _) :: calls', true :: oks' => path :: succeeded calls' oks'
  | _ :: calls', false :: oks' => succeeded calls' oks'
  | _, _ => []
  end.

End WithInstance.

End Proxy.

(** ** The health report: [health.ts] *)

Module Health.
Import Fastify.

(** What the process holds when a request arrives: the clock (ms since
    the epoch) and the module state of the three registries that
    [health.ts] imports. *)
Record World (F : Type) : Type := mkWorld {
  now : Z;
  customizeNameList : option (list string);
  functionNameList : option (list string);
  proxy : Proxy.State F
}.
Arguments mkWorld {F} _ _ _ _.
Arguments now {F} _.
Arguments customizeNameList {F} _.
Arguments functionNameList {F} _.
Arguments proxy {F} _.

(** Modelled from the spec: [./customize] is not under [src/]; its
    [getCustomizeNameList] is the registry's [listNames()], "names in the
    order they were registered". *)
Definition getCustomizeNameList {F} (w : World F) : option (list string) :=
  customizeNameList w.

(** Modelled from the spec: [./function] is not under [src/]; its
    [getFunctionNameList] is the registry's [listNames()], "names in the
    order they were registered". *)
Definition getFunctionNameList {F} (w : World F) : option (list string) :=
  functionNameList w.

(** A [string[]] module variable as a value; unset, it is [undefined]. *)
Definition names_value (l : option (list string)) : Js.Value :=
  match l with
  | None => Js.Undefined
  | Some l => Js.Arr (Js.Str <$> l)
  end.

(** [name] is an element of the list under key [k] of a report. *)
Definition listed (k name : string) (r : gmap string Js.Value) : Prop :=
  ∃ l, r !! k = Some (Js.Arr l) ∧ Js.Str name ∈ l.

Section WithClock.
Context {F : Type}.

(** [Date.prototype.toISOString] is a builtin; it is taken as given. *)
Variable toISOString : Z → string.

(** The module constant [startTime], evaluated when the module loads. *)
Record Module : Type := mkModule { startTime : string }.

Definition load (w : World F) : Module :=
  {| startTime := toISOString (now w) |}.

(** The [report] object of the reply. *)
Definition report (m : Module) (w : World F) : gmap string Js.Value :=
  {[ "customizes" := names_value (getCustomizeNameList w);
     "functions" := names_value (getFunctionNameList w);
     "proxys" := names_value (Proxy.getproxyNameList (proxy w));
     "time" := Js.Str (startTime m) ]}.

(** The handler that [FireboomHealthPlugun] mounts at [Endpoint.Health]:
    the object it returns in world [w]. *)
Definition FireboomHealthPlugun (m : Module) (w : World F) : gmap string Js.Value :=
  {[ "status" := Js.Str "ok"; "report" := Js.Obj (report m w) ]}.

(** The world once the category plugins have run and nothing is
    registered yet. *)
Definition booted (t : Z) (f : F) : World F :=
  mkWorld t (Some []) (Some []) (Proxy.FireboomProxiesPlugin f Proxy.unloaded).

(** [registerProxyHandler] acting on the proxy module of the world. *)
Definition register_proxy `{FastifyInstance F} (Endpoint_Proxy : string)
    (replaceUrl : string → gmap string string → string)
    (path : string) (config : Proxy.ProxyConfig) (w : World F)
    : Js.Completion () * World F :=
  let '(c, st) := Proxy.registerProxyHandler Endpoint_Proxy replaceUrl path config (proxy w) in
  (c, mkWorld (now w) (customizeNameList w) (functionNameList w) st).

End WithClock.

End Health.

(** ** Request context, loader and startup: [server.ts] *)

Module Server.
Import Fastify.

Record HookServerConfiguration : Type := mkConfig {
  logLevel : option string;
  apiBaseURL : string;
  listen : Js.Value
}.

(** The [preHandler] hook: the request with [ctx] assigned, or a throw. *)
Definition preHandler (config : HookServerConfiguration) (req : FastifyRequest)
    : Js.Completion FastifyRequest :=
  wg ← Js.get (body req) "__wg";
  clientRequest ← Js.get wg "clientRequest";
  let operationsClient :=
    {| baseURL := apiBaseURL config;
       customFetch := fetch;
       requestTimeoutMs := 3000;
       oc_clientRequest := clientRequest |} in
  wg' ← Js.get (body req) "__wg";
  user ← Js.get wg' "user";
  mret {| body := body req; headers := headers req; method := method req;
          query := query req;
          ctx := Some {| ctx_logger := logger;
                         user := user;
                         clientRequest := clientRequest;
                         operationsClient := operationsClient |} |}.

(** Fastify's default error handler, which [startServer] never replaces:
    the status is the error's [statusCode] when that is at least 400, and
    500 otherwise. *)
Definition defaultErrorHandler (e : Js.Error) : FastifyReply :=
  let code := match Js.statusCode e with
              | Some c => if decide (400 ≤ c) then c else 500
              | None => 500
              end in
  {| reply_statusCode := code;
     reply_payload := Js.Obj {["statusCode" := Js.Num code;
                               "message" := Js.Str (Js.message e)]} |}.

(** What happens while one request is handled. *)
Inductive Event : Type :=
| ContextBuilt (c : RequestContext)
| HookThrew (e : Js.Error)
| HandlerRan (c : option RequestContext)
| HandlerThrew (e : Js.Error).

(** Fastify's lifecycle for a route of the scope that holds the hook:
    the [preHandler] hook runs, then the route handler; a throw in either
    goes to the error handler. *)
Definition dispatch (config : HookServerConfiguration) (r : RouteOptions)
    (req : FastifyRequest) : list Event * FastifyReply :=
  match preHandler config req with
  | inl e => ([HookThrew e], defaultErrorHandler e)
  | inr req' =>
      let built := match ctx req' with
                   | Some c => [ContextBuilt c]
                   | None => []
                   end in
      match route_handler r req' fresh_reply with
      | inl e => (built ++ [HandlerRan (ctx req'); HandlerThrew e], defaultErrorHandler e)
      | inr reply => (built ++ [HandlerRan (ctx req')], reply)
      end
  end.

Definition is_ContextBuilt (e : Event) : bool :=
  match e with ContextBuilt _ => true | _ => false end.

(** How many contexts were built while the request was handled. *)
Definition contexts_built (events : list Event) : nat :=
  length (filter (λ e, is_ContextBuilt e = true) events).

(** The context with caller request [cr] and identity [u], as the hook
    assembles it, and the request that carries it. *)
Definition context_of (config : HookServerConfiguration) (cr u : Js.Value) : RequestContext :=
  {| ctx_logger := logger; user := u; clientRequest := cr;
     operationsClient := {| baseURL := apiBaseURL config; customFetch := fetch;
                            requestTimeoutMs := 3000; oc_clientRequest := cr |} |}.

Definition with_ctx (req : FastifyRequest) (c : RequestContext) : FastifyRequest :=
  {| body := body req; headers := headers req; method := method req;
     query := query req; ctx := Some c |}.

(** The class of client errors. *)
Definition is_4xx (code : Z) : bool := bool_decide (400 ≤ code < 500).

(** *** The extension loader *)

Section Startup.
(** The process state that loading a module can change. *)
Context {W : Type}.

(** [fast-glob], [path.resolve], [require] and [__dirname] are the
    runtime's; the four [fastify.register] calls of the category
    plugins are taken together. *)
Variable glob : string → W → list string.
Variable resolve : string → string → string.
Variable require : string → W → Js.Completion () * W.
Variable register_plugins : W → Js.Completion () * W.
Variable __dirname : string.

Definition suffix (NODE_ENV : option string) : string :=
  if decide (NODE_ENV = Some "production") then "js" else "ts".

Definition pattern (NODE_ENV : option string) : string :=
  resolve __dirname
    ("./{customize,global,operation,storage,proxy}/**/*." +:+ suffix NODE_ENV).

(** [for (const entry of entries) require(entry)]: the entries whose
    [require] was called, the completion and the state. *)
Fixpoint require_each (entries : list string) (w : W)
    : list string * (Js.Completion () * W) :=
  match entries with
  | [] => ([], (Js.ret (), w))
  | entry :: rest =>
      match require entry w with
      | (inl e, w') => ([entry], (Js.throw e, w'))
      | (inr _, w') =>
          let '(called, r) := require_each rest w' in (entry :: called, r)
      end
  end.

(** The body of the plugin registered at lines 65-102, after the hook
    is added. *)
Definition load_extensions (NODE_ENV : option string) (w : W)
    : list string * (Js.Completion () * W) :=
  match register_plugins w with
  | (inl e, w') => ([], (Js.throw e, w'))
  | (inr _, w') => require_each (glob (pattern NODE_ENV) w') w'
  end.

(** What [startServer] does after the plugin has loaded. *)
Inductive Action : Type :=
| InstallShutdown (delay : nat)
| Listen (opts : Js.Value).

(** [startServer], from the awaited [fastify.register] of line 65 on (the
    statements before it configure the logger and add hooks): the plugin
    either throws, which rejects [startServer] before the two last
    statements, or completes, after which the shutdown handler is installed
    and the server listens. *)
Definition startServer (config : HookServerConfiguration)
    (NODE_ENV : option string) (w : W)
    : list string * list Action * (Js.Completion () * W) :=
  match load_extensions NODE_ENV w with
  | (called, (inl e, w')) => (called, [], (Js.throw e, w'))
  | (called, (inr _, w')) =>
      (called, [InstallShutdown 500; Listen (listen config)], (Js.ret (), w'))
  end.

End Startup.

End Server.

(** ** Graceful shutdown: the [closeWithGrace] call of [server.ts] *)

Module Shutdown.

(** What is written by [logger.error] and [logger.info], and by the
    library's own [console.error]. *)
Inductive LogEntry : Type :=
| LogError (msg : string) (e : Js.Error)
| LogInfo (msg : string)
| ConsoleError (e : Js.Error).

(** What starts a shutdown: a termination signal, or an uncaught
    exception or unhandled rejection, which the library hands to the
    callback as [err]. *)
Inductive Trigger : Type :=
| Signal (name : string)
| Uncaught (e : Js.Error).

Definition err (t : Trigger) : option Js.Error :=
  match t with
  | Signal _ => None
  | Uncaught e => Some e
  end.

(** How [fastify.close()] settles, in ms after the call: it resolves once
    the in-flight requests are done, it rejects, or it stays pending. *)
Inductive Settles : Type :=
| Resolves (ms : nat)
| Rejects (ms : nat) (e : Js.Error)
| Pending.

(** The statements of an async callback: log lines, and the one
    suspension point [await fastify.close()]. *)
Inductive Step : Type :=
| LoggerError (msg : string) (e : Js.Error)
| LoggerInfo (msg : string)
| AwaitClose.

(** The callback of lines 105-111. *)
Definition callback (err : option Js.Error) : list Step :=
  match err with
  | Some e => [LoggerError "Error when graceful shutdown Fireboom hook server" e]
  | None => []
  end
  ++ [AwaitClose; LoggerInfo "Fireboom hook server is closed"].

(** Runs the statements up to the next [await]: the lines logged, and the
    statements left for after the [await], if one was reached. *)
Fixpoint run (steps : list Step) : list LogEntry * option (list Step) :=
  match steps with
  | [] => ([], None)
  | LoggerError msg e :: rest => let '(l, k) := run rest in (LogError msg e :: l, k)
  | LoggerInfo msg :: rest => let '(l, k) := run rest in (LogInfo msg :: l, k)
  | AwaitClose :: rest => ([], Some rest)
  end.

(** The states of the coordinator; [Draining n] is [n] ms after the
    trigger, [Closed code] is the exited process. *)
Inductive Phase : Type :=
| Running
| Draining (elapsed : nat)
| Closed (exitCode : Z).

(** The process: its phase, its log, whether [fastify.close()] has been
    called, and what the suspended callback has left to do. *)
Record Process : Type := mkProcess {
  phase : Phase;
  log : list LogEntry;
  closing : bool;
  suspended : list Step
}.

Definition running : Process :=
  {| phase := Running; log := []; closing := false; suspended := [] |}.

Definition exit (code : Z) (p : Process) (more : list LogEntry) : Process :=
  {| phase := Closed code; log := log p ++ more; closing := closing p; suspended := [] |}.

Section CloseWithGrace.
(** The [delay] option, the trigger of this shutdown and the way
    [fastify.close()] settles in it. *)
Variable delay : nat.
Variable t : Trigger.
Variable close : Settles.

(** The exit code after the callback has ended by itself. *)
Definition code_done : Z :=
  match err t with
  | Some _ => 1
  | None => 0
  end.

(** Runs the callback from [steps] on: it ends, and the process exits, or
    it is suspended at [await fastify.close()]. *)
Definition resume (n : nat) (steps : list Step) (p : Process) : Process :=
  match run steps with
  | (l, None) => exit code_done p l
  | (l, Some rest) =>
      {| phase := Draining n; log := log p ++ l; closing := true; suspended := rest |}
  end.

(** The library starts the callback when the trigger arrives; a second
    trigger during the shutdown exits at once. *)
Definition on_trigger (p : Process) : Process :=
  match phase p with
  | Running => resume 0 (callback (err t)) p
  | Draining _ => exit 1 p []
  | Closed _ => p
  end.

(** One millisecond of the race between the callback and the timer: the
    timer exits with code 1 once [delay] has elapsed; before that, when
    [close] has resolved the callback goes on, and when it has rejected
    the callback, which catches nothing, rejects: the library writes the
    error to the console and exits with 1. *)
Definition tick (p : Process) : Process :=
  match phase p with
  | Draining n =>
      if decide (delay ≤ n)%nat then exit 1 p []
      else
        match close with
        | Resolves ms =>
            if decide (ms ≤ n)%nat then resume (S n) (suspended p) p
            else {| phase := Draining (S n); log := log p; closing := closing p;
                    suspended := suspended p |}
        | Rejects ms e =>
            if decide (ms ≤ n)%nat then exit 1 p [ConsoleError e]
            else {| phase := Draining (S n); log := log p; closing := closing p;
                    suspended := suspended p |}
        | Pending =>
            {| phase := Draining (S n); log := log p; closing := closing p;
               suspended := suspended p |}
        end
  | _ => p
  end.

(** The process [n] ms after the trigger. *)
Definition after (n : nat) : Process := Nat.iter n tick (on_trigger running).

(** The process while the callback of [server.ts] waits for [close]. *)
Definition first_log : list LogEntry :=
  match err t with
  | Some e => [LogError "Error when graceful shutdown Fireboom hook server" e]
  | None => []
  end.

Definition draining (n : nat) : Process :=
  {| phase := Draining n; log := first_log; closing := true;
     suspended := [LoggerInfo "Fireboom hook server is closed"] |}.

End CloseWithGrace.

(** The delay that [startServer] passes. *)
Definition grace_delay : nat := 500.

End Shutdown.

(** ** Sample inputs *)

Module Samples.
Import Fastify.

(** Requests without the id header, and with a given one. *)
Definition no_header : ReqId.Headers := ∅.
Definition with_id (s : string) : ReqId.Headers :=
  {["x-request-id" := ReqId.HString s]}.
Definition sample : list ReqId.Headers := [no_header; with_id "1"; no_header].

(** The same with a request that Fastify's own header identifies. *)
Definition mixed : list ReqId.Headers :=
  [no_header; with_id "1"; {["request-id" := ReqId.HString "zzz"]}; no_header].

(** A request that carries the header with an empty value. *)
Definition empty_id : ReqId.Headers := with_id "".

(** A request that carries both id headers, and one with [request-id]
    alone. *)
Definition both_ids : ReqId.Headers :=
  {["x-request-id" := ReqId.HString "a"; "request-id" := ReqId.HString "b"]}.
Definition fastify_id : ReqId.Headers := {["request-id" := ReqId.HString "zzz"]}.

(** A fresh server is sent [2^53 + 1] requests without id. *)
Definition many : nat := Z.to_nat Js.MAX_EXACT.
Definition flood : list ReqId.Headers := replicate (S many) no_header.

(** Stand-ins for [Endpoint.Proxy] and [replaceUrl], to run examples:
    the proxy's name becomes the last path segment. *)
Definition Endpoint_Proxy : string := "/proxy".
Definition replaceUrl (template : string) (params : gmap string string) : string :=
  template +:+ "/" +:+ default "" (params !! "path").

(** A proxy handler that answers with the caller request it finds in the
    context. *)
Definition echo : Proxy.ProxyConfig :=
  {| Proxy.handler := λ _ c reply,
       Js.ret {| reply_statusCode := reply_statusCode reply;
                 reply_payload := from_option clientRequest Js.Null c |} |}.

Definition register_sample :=
  Proxy.register_all (F:=RouteTable) Endpoint_Proxy replaceUrl.

(** A fresh process at time [0]: plugins loaded, nothing registered. *)
Definition fresh : Health.World RouteTable := Health.booted 0 [].

Definition loaded_at_boot : Health.Module := Health.mkModule "2024-05-01T08:00:00.000Z".

Definition config : Server.HookServerConfiguration :=
  {| Server.logLevel := None;
     Server.apiBaseURL := "http://localhost:9991";
     Server.listen := Js.Obj {["port" := Js.Num 9992]} |}.

Definition request_with (b : Js.Value) : FastifyRequest :=
  {| body := b; headers := ∅; method := "POST"; query := Js.Obj ∅; ctx := None |}.

Definition caller : Js.Value :=
  Js.Obj {["method" := Js.Str "GET"; "requestURI" := Js.Str "/operations/Orders"]}.

(** An envelope with the caller request and no identity claim. *)
Definition anonymous : FastifyRequest :=
  request_with (Js.Obj {["__wg" := Js.Obj {["clientRequest" := caller]}]}).

(** An envelope without the caller request, and a request without body. *)
Definition empty_envelope : FastifyRequest :=
  request_with (Js.Obj {["__wg" := Js.Obj ∅]}).
Definition no_body : FastifyRequest :=
  {| body := Js.Undefined; headers := ∅; method := "GET"; query := Js.Obj ∅; ctx := None |}.

Definition orders_route : RouteOptions :=
  Proxy.proxy_route Endpoint_Proxy replaceUrl "orders" echo.

(** A process for the loader: the state is the list of loaded modules;
    the scan finds three files, the second of which throws when loaded. *)
Definition scan (pattern : string) (w : list string) : list string :=
  if String.eqb pattern "/srv/./{customize,global,operation,storage,proxy}/**/*.ts"
  then ["/srv/customize/a.ts"; "/srv/global/broken.ts"; "/srv/proxy/orders.ts"]
  else [].
Definition join_path (dir rel : string) : string := dir +:+ "/" +:+ rel.
Definition load_module (entry : string) (w : list string) : Js.Completion () * list string :=
  if String.eqb entry "/srv/global/broken.ts"
  then (Js.throw {| Js.name := "Error"; Js.message := "broken"; Js.statusCode := None |}, w)
  else (Js.ret (), w ++ [entry]).
Definition plugins_ok (w : list string) : Js.Completion () * list string := (Js.ret (), w).

(** The context that [preHandler] builds for [empty_envelope]. *)
Definition empty_context : RequestContext :=
  {| ctx_logger := logger;
     user := Js.Undefined;
     clientRequest := Js.Undefined;
     operationsClient := {| baseURL := "http://localhost:9991";
                            customFetch := fetch;
                            requestTimeoutMs := 3000;
                            oc_clientRequest := Js.Undefined |} |}.

End Samples.

(** ** Runs of the id generator, module states and route announcements *)

Module ReqIdRun.
Import ReqId.

(** Whether the request brings an id of its own. *)
Definition usable (h : Headers) : bool := brings_id h.

(** The requests that are given a generated id. *)
Definition without_own_id (reqs : list Headers) : list Headers :=
  filter (λ h, usable h = false) reqs.

(** From the ids given to [reqs], those that were generated. *)
Fixpoint generated_ids (reqs : list Headers) (ids : list HeaderValue) : list HeaderValue :=
  match reqs, ids with
  | h :: reqs', rid :: ids' =>
      if usable h then generated_ids reqs' ids' else rid :: generated_ids reqs' ids'
  | _, _ => []
  end.

End ReqIdRun.

Module ProxyStates.
Import Fastify Proxy.

Section WithInstance.
Context {F : Type} `{FastifyInstance F}.
Variable Endpoint_Proxy : string.
Variable replaceUrl : string → gmap string string → string.

(** The states of the proxy module in a process: the module is loaded with
    both variables unset, and changes only through its two exported
    operations. *)
Inductive reachable : State F → Prop :=
| reachable_load : reachable unloaded
| reachable_plugin (_fastify : F) (st : State F) :
    reachable st → reachable (FireboomProxiesPlugin _fastify st)
| reachable_register (path : string) (config : ProxyConfig) (st : State F) :
    reachable st →
    reachable (registerProxyHandler Endpoint_Proxy replaceUrl path config st).2.

End WithInstance.

End ProxyStates.

Module RouteLog.
Import Fastify.

(** JavaScript truthiness of a value. *)
Definition truthy (v : Js.Value) : bool :=
  match v with
  | Js.Undefined | Js.Null => false
  | Js.Bool b => b
  | Js.Num n => negb (n =? 0)
  | Js.Str s => negb (String.eqb s "")
  | Js.Arr _ | Js.Obj _ => true
  end.

(** [v?.k], for a property name that no builtin prototype defines. *)
Definition optional_get (v : Js.Value) (k : string) : Js.Value :=
  match v with
  | Js.Obj o => default Js.Undefined (o !! k)
  | _ => Js.Undefined
  end.

(** A call of [fastify.log.debug] in the [onRoute] hook, by the template
    used and the values put into it. *)
Inductive Debug : Type :=
| RegisteredOperationHook (operationName : Js.Value) (method : list string) (url : string)
| RegisteredGlobalHook (method : list string) (url : string).

(** The [onRoute] hook of lines 52-63: the debug calls it makes for a
    route. *)
Definition onRoute (routeOptions : RouteOptions) : list Debug :=
  let routeConfig := route_config routeOptions in
  match optional_get routeConfig "kind" with
  | Js.Str kind =>
      if String.eqb kind "hook" then
        let operationName := optional_get routeConfig "operationName" in
        if truthy operationName
        then [RegisteredOperationHook operationName
                (route_method routeOptions) (route_url routeOptions)]
        else [RegisteredGlobalHook (route_method routeOptions) (route_url routeOptions)]
      else []
  | _ => []
  end.

End RouteLog.

Module Loading.

Section Loads.
Context {W : Type}.
Variable require : string → W → Js.Completion () * W.

(** [loads entries w w']: required one after the other from the state
    [w], the files all load without a throw and leave the state [w']. *)
Inductive loads : list string → W → W → Prop :=
| loads_nil (w : W) : loads [] w w
| loads_cons (entry : string) (rest : list string) (w w1 w2 : W) :
    require entry w = (inr (), w1) → loads rest w1 w2 → loads (entry :: rest) w w2.

End Loads.

End Loading.

Module HealthRun.
Import Fastify Health.

(** A sequence of [registerProxyHandler] calls in a process, whether they
    complete or throw: the world after them. *)
Fixpoint register_proxies {F : Type} `{FastifyInstance F} (Endpoint_Proxy : string)
    (replaceUrl : string → gmap string string → string)
    (calls : list (string * Proxy.ProxyConfig)) (w : World F) : World F :=
  match calls with
  | [] => w
  | (path, config) :: rest =>
      register_proxies Endpoint_Proxy replaceUrl rest
        (register_proxy Endpoint_Proxy replaceUrl path config w).2
  end.

End HealthRun.

Module ShutdownEnds.
Import Shutdown.

(** Whether [fastify.close()] settles before the timer of [delay] fires. *)
Definition in_time (delay : nat) (close : Settles) : bool :=
  match close with
  | Resolves ms | Rejects ms _ => bool_decide (ms < delay)%nat
  | Pending => false
  end.

End ShutdownEnds.

Module MoreSamples.
Import Fastify.

(** Two requests without id, on a server one id short of [2^53]. *)
Definition almost_saturated : Z := Js.MAX_EXACT - 1.
Definition two_plain : list ReqId.Headers := [Samples.no_header; Samples.no_header].

(** The proxy module right after its plugin ran on an empty route table. *)
Definition initialised : Proxy.State RouteTable :=
  Proxy.FireboomProxiesPlugin [] Proxy.unloaded.

(** The request [Samples.anonymous] with other headers, method and query,
    and a context left from before. *)
Definition anonymous_again : FastifyRequest :=
  {| body := body Samples.anonymous;
     headers := Samples.with_id "abc";
     method := "GET";
     query := Js.Obj {["page" := Js.Num 2]};
     ctx := Some Samples.empty_context |}.

(** A configuration with the same base URL and other settings. *)
Definition verbose_config : Server.HookServerConfiguration :=
  {| Server.logLevel := Some "debug";
     Server.apiBaseURL := "http://localhost:9991";
     Server.listen := Js.Obj {["port" := Js.Num 8080]} |}.

(** Category plugins of which one throws. *)
Definition plugin_error : Js.Error :=
  {| Js.name := "Error"; Js.message := "plugin failed"; Js.statusCode := None |}.
Definition plugins_fail (w : list string) : Js.Completion () * list string :=
  (Js.throw plugin_error, w).

(** A hook route without operation name, and one with. *)
Definition hook_route (config : gmap string Js.Value) : RouteOptions :=
  {| route_method := ["POST"];
     route_url := "/global/httpTransport/onOriginRequest";
     route_config := Js.Obj config;
     route_handler := λ _ reply, Js.ret reply |}.

End MoreSamples.

(** * Properties *)

(** ** Correlation ids *)

Module ReqIdSpec.
Import ReqId Samples.

Example serve_sample :
  serve sample initial_id = [HString "1"; HString "1"; HString "2"].
Proof. vm_compute. reflexivity. Qed.

Example serve_mixed :
  serve mixed initial_id = [HString "1"; HString "1"; HString "zzz"; HString "2"].
Proof. vm_compute. reflexivity. Qed.

Lemma genReqId_header h id v :
  h !! "x-request-id" = Some v → truthy (Some v) = true →
  genReqId h id = (toString v, id).
Proof. intros Hh Ht. unfold genReqId. by rewrite Hh, Ht. Qed.

Lemma genReqId_counter h id :
  truthy (h !! "x-request-id") = false →
  genReqId h id = (Js.number_to_string (Js.pre_increment id), Js.pre_increment id).
Proof.
  intros Ht. unfold genReqId.
  destruct (h !! "x-request-id") as [v|]; [by rewrite Ht|done].
Qed.

(** A truthy [request-id] header is the id, and [genReqId] is not called. *)
Lemma request_id_own h id v :
  h !! "request-id" = Some v → truthy (Some v) = true → request_id h id = (v, id).
Proof. intros Hh Ht. unfold request_id. by rewrite Hh, Ht. Qed.

(** Every other request gets what [genReqId] returns. *)
Lemma request_id_passes h id :
  truthy (h !! "request-id") = false →
  request_id h id = (HString (genReqId h id).1, (genReqId h id).2).
Proof.
  intros Ht. unfold request_id.
  destruct (h !! "request-id") as [v|]; [rewrite Ht|]; by destruct (genReqId h id).
Qed.

Lemma brings_id_false h :
  brings_id h = false ↔
  truthy (h !! "request-id") = false ∧ truthy (h !! "x-request-id") = false.
Proof. unfold brings_id. apply orb_false_iff. Qed.

Lemma request_id_generated h id :
  brings_id h = false →
  request_id h id
  = (HString (Js.number_to_string (Js.pre_increment id)), Js.pre_increment id).
Proof.
  intros [Hf Hx]%brings_id_false. by rewrite request_id_passes, genReqId_counter.
Qed.

(** A request that brings an id leaves the counter alone. *)
Lemma request_id_brought h id : brings_id h = true → (request_id h id).2 = id.
Proof.
  unfold brings_id. intros Hb.
  destruct (truthy (h !! "request-id")) eqn:Hf.
  - destruct (h !! "request-id") as [v|] eqn:Hv; [|done].
    by rewrite (request_id_own h id v).
  - rewrite request_id_passes by done. simpl in Hb.
    destruct (h !! "x-request-id") as [v|] eqn:Hv; [|done].
    by rewrite (genReqId_header h id v).
Qed.

Lemma pre_increment_min id :
  id ≤ Js.MAX_EXACT → Js.pre_increment id = Z.min Js.MAX_EXACT (id + 1).
Proof. intros Hid. unfold Js.pre_increment. case_decide; lia. Qed.

Lemma generated_cons h reqs :
  generated (h :: reqs) = ((if brings_id h then 0 else 1) + generated reqs)%nat.
Proof.
  unfold generated. rewrite filter_cons.
  destruct (brings_id h); by case_decide.
Qed.

Lemma generated_take_le i reqs : (generated (take i reqs) ≤ generated reqs)%nat.
Proof.
  revert i. induction reqs as [|h reqs IH]; intros [|i]; simpl; try (unfold generated; simpl; lia).
  rewrite !generated_cons. specialize (IH i). lia.
Qed.

Lemma generated_take_S i reqs h :
  reqs !! i = Some h → brings_id h = false →
  generated (take (S i) reqs) = S (generated (take i reqs)).
Proof.
  intros Hi Ht. rewrite (take_S_r _ _ _ Hi). unfold generated.
  rewrite filter_app, length_app, filter_cons, decide_True by done. simpl. lia.
Qed.

Lemma generated_replicate n h : brings_id h = false → generated (replicate n h) = n.
Proof.
  intros Hb. induction n as [|n IH]; [done|].
  change (replicate (S n) h) with (h :: replicate n h). by rewrite generated_cons, Hb, IH.
Qed.

(** The [i]-th request is answered as by [request_id] with the counter
    advanced once per id generated before it, up to [2^53]. *)
Lemma serve_lookup_saturating reqs : ∀ id i h,
  id ≤ Js.MAX_EXACT →
  reqs !! i = Some h →
  serve reqs id !! i
  = Some (request_id h (Z.min Js.MAX_EXACT
                          (id + Z.of_nat (generated (take i reqs))))).1.
Proof.
  induction reqs as [|h0 reqs IH]; intros id i h Hid Hi; [done|].
  destruct i as [|i].
  - assert (generated (take 0 (h0 :: reqs)) = 0%nat) as -> by done.
    simpl in Hi. simplify_eq. simpl. rewrite Z.add_0_r, Z.min_r by done.
    by destruct (request_id h id).
  - simpl. destruct (request_id h0 id) as [rid id'] eqn:Hgen. simpl in *.
    rewrite generated_cons.
    destruct (brings_id h0) eqn:Hu.
    + pose proof (request_id_brought h0 id Hu) as Hid'. rewrite Hgen in Hid'. simpl in Hid'.
      subst id'. rewrite (IH id i h) by done. do 3 f_equal.
    + rewrite (request_id_generated h0 id Hu) in Hgen. simplify_eq.
      rewrite pre_increment_min by done.
      rewrite (IH (Z.min Js.MAX_EXACT (id + 1)) i h) by (done || lia).
      do 3 f_equal. lia.
Qed.

(** A request that brings no id gets the decimal form of the counter
    advanced by the ids generated so far, its own included, up to [2^53]. *)
Lemma serve_generated_saturating reqs id i h :
  id ≤ Js.MAX_EXACT →
  reqs !! i = Some h → brings_id h = false →
  serve reqs id !! i
  = Some (HString (Js.number_to_string
                     (Z.min Js.MAX_EXACT (id + Z.of_nat (generated (take (S i) reqs)))))).
Proof.
  intros Hid Hi Hu. rewrite (serve_lookup_saturating reqs id i h Hid Hi).
  rewrite request_id_generated by done. simpl.
  rewrite pre_increment_min by lia.
  rewrite (generated_take_S i reqs h) by done. do 3 f_equal. lia.
Qed.

Lemma serve_generated reqs i h :
  Z.of_nat (generated reqs) ≤ Js.MAX_EXACT →
  reqs !! i = Some h → brings_id h = false →
  serve reqs initial_id !! i
  = Some (HString (Js.number_to_string (Z.of_nat (generated (take (S i) reqs))))).
Proof.
  intros Hmax Hi Hu.
  rewrite (serve_generated_saturating reqs initial_id i h) by (done || by vm_compute).
  pose proof (generated_take_le (S i) reqs). do 3 f_equal. unfold initial_id. lia.
Qed.

Lemma number_to_string_ne a b : a ≠ b → Js.number_to_string a ≠ Js.number_to_string b.
Proof. intros Hne Heq. apply Hne. by apply (inj pretty). Qed.

Lemma number_to_string_MAX : Js.number_to_string Js.MAX_EXACT = "9007199254740992".
Proof. vm_compute. reflexivity. Qed.

(** On a fresh server, the request after [n = 2^53] requests without id
    gets the id of the one before it. *)
Lemma flood_saturates (n : nat) h :
  Z.of_nat n = Js.MAX_EXACT → brings_id h = false →
  serve (replicate (S n) h) initial_id !! pred n = Some (HString "9007199254740992")
  ∧ serve (replicate (S n) h) initial_id !! n = Some (HString "9007199254740992").
Proof.
  intros Hn Hb.
  assert (0 < Z.of_nat n) as Hpos by (rewrite Hn; by vm_compute).
  assert (∀ i, (i ≤ n)%nat → generated (take (S i) (replicate (S n) h)) = S i) as Htake.
  { intros i Hi. rewrite take_replicate, generated_replicate by done. lia. }
  split.
  - rewrite (serve_generated_saturating _ initial_id (pred n) h);
      [|by vm_compute|apply lookup_replicate_2; lia|done].
    rewrite Htake by lia. rewrite <- number_to_string_MAX. do 3 f_equal.
    unfold initial_id. lia.
  - rewrite (serve_generated_saturating _ initial_id n h);
      [|by vm_compute|apply lookup_replicate_2; lia|done].
    rewrite Htake by lia. rewrite <- number_to_string_MAX. do 3 f_equal.
    unfold initial_id. lia.
Qed.

Lemma many_is_MAX : Z.of_nat many = Js.MAX_EXACT.
Proof. unfold many. apply Z2Nat.id. by vm_compute. Qed.

(** C1, as stated, fails on the code in three ways. A request that carries
    [x-request-id] with the empty value is not given that value: the guard
    [if (req.headers['x-request-id'])] is false for it, and a fresh server
    answers ["1"]. A request that also carries a [request-id] header is
    given that one, not its [x-request-id], and one that carries
    [request-id] alone gets it where a generated id is promised: Fastify
    reads that header before it calls [genReqId]. And [id] is a number:
    when a fresh server has generated [2^53] ids, [++id] no longer changes
    it, and the next request without id gets the id of the one before. *)
Lemma id_policy_fails :
  (empty_id !! "x-request-id" = Some (HString "")
   ∧ request_id empty_id initial_id = (HString "1", 1))
  ∧ (both_ids !! "x-request-id" = Some (HString "a")
     ∧ request_id both_ids initial_id = (HString "b", 0))
  ∧ (fastify_id !! "x-request-id" = None
     ∧ serve [fastify_id; no_header] initial_id = [HString "zzz"; HString "1"])
  ∧ (serve flood initial_id !! pred many = Some (HString "9007199254740992")
     ∧ serve flood initial_id !! many = Some (HString "9007199254740992")).
Proof.
  split; [split; [reflexivity|by vm_compute]|].
  split; [split; [reflexivity|by vm_compute]|].
  split; [split; [reflexivity|by vm_compute]|].
  unfold flood. exact (flood_saturates many no_header many_is_MAX eq_refl).
Qed.

(** C1 (amended). For every sequence of inbound requests on a fresh
    server in which at most 2^53 ids are generated: a request that carries
    a non-empty [request-id] header gets that value; otherwise a request
    that carries a truthy [x-request-id] header (a non-empty string, or an
    array) gets the header's string form, which for a string is the value
    verbatim, whatever ids were generated before; every other request gets
    the decimal form of the counter, which starts at 1 and counts the ids
    generated so far, so that two such requests get strictly increasing,
    distinct ids. *)
Theorem correlation_id_policy (reqs : list Headers) :
  Z.of_nat (generated reqs) ≤ Js.MAX_EXACT →
  (∀ i h v, reqs !! i = Some h → h !! "request-id" = Some v →
     truthy (Some v) = true →
     serve reqs initial_id !! i = Some v)
  ∧ (∀ i h v, reqs !! i = Some h → truthy (h !! "request-id") = false →
       h !! "x-request-id" = Some v → truthy (Some v) = true →
       serve reqs initial_id !! i = Some (HString (toString v)))
  ∧ (∀ i h s, reqs !! i = Some h → truthy (h !! "request-id") = false →
       h !! "x-request-id" = Some (HString s) → s ≠ "" →
       serve reqs initial_id !! i = Some (HString s))
  ∧ (∀ i h, reqs !! i = Some h → brings_id h = false →
       serve reqs initial_id !! i
       = Some (HString (Js.number_to_string (Z.of_nat (generated (take (S i) reqs))))))
  ∧ (∀ i j hi hj, (i < j)%nat → reqs !! i = Some hi → reqs !! j = Some hj →
       brings_id hi = false → brings_id hj = false →
       ∃ a b, serve reqs initial_id !! i = Some (HString (Js.number_to_string a))
              ∧ serve reqs initial_id !! j = Some (HString (Js.number_to_string b))
              ∧ 1 ≤ a < b
              ∧ Js.number_to_string a ≠ Js.number_to_string b).
Proof.
  intros Hmax.
  assert (initial_id ≤ Js.MAX_EXACT) as Hid by (by vm_compute).
  assert (∀ i h v, reqs !! i = Some h → truthy (h !! "request-id") = false →
            h !! "x-request-id" = Some v → truthy (Some v) = true →
            serve reqs initial_id !! i = Some (HString (toString v))) as Hverbatim.
  { intros i h v Hi Hf Hv Ht.
    rewrite (serve_lookup_saturating reqs initial_id i h Hid Hi).
    by rewrite request_id_passes, (genReqId_header _ _ v). }
  split_and!.
  - intros i h v Hi Hv Ht.
    rewrite (serve_lookup_saturating reqs initial_id i h Hid Hi).
    by rewrite (request_id_own _ _ v).
  - done.
  - intros i h s Hi Hf Hs Hne. apply (Hverbatim i h (HString s) Hi Hf Hs).
    simpl. by destruct (String.eqb_spec s "").
  - intros i h Hi Hb. by apply (serve_generated reqs i h).
  - intros i j hi hj Hij Hi Hj Hti Htj.
    exists (Z.of_nat (generated (take (S i) reqs))), (Z.of_nat (generated (take (S j) reqs))).
    rewrite (serve_generated reqs i hi), (serve_generated reqs j hj) by done.
    assert (generated (take (S i) reqs) < generated (take (S j) reqs))%nat as Hlt.
    { rewrite (generated_take_S j reqs hj) by done.
      replace (take (S i) reqs) with (take (S i) (take j reqs))
        by (rewrite take_take; f_equal; lia).
      pose proof (generated_take_le (S i) (take j reqs)). lia. }
    rewrite (generated_take_S i reqs hi) in * by done.
    split_and!; [done | done | lia | lia | apply number_to_string_ne; lia].
Qed.

(** The theorem at [mixed]: ids ["1"], ["1"] (the caller's, colliding
    with the generated one), ["zzz"] and ["2"]. *)
Lemma correlation_id_policy_sample :
  Z.of_nat (generated mixed) ≤ Js.MAX_EXACT
  ∧ serve mixed initial_id !! 2%nat = Some (HString "zzz")
  ∧ serve mixed initial_id !! 1%nat = Some (HString "1")
  ∧ serve mixed initial_id !! 0%nat = Some (HString (Js.number_to_string 1))
  ∧ serve mixed initial_id !! 3%nat = Some (HString (Js.number_to_string 2)).
Proof.
  assert (Z.of_nat (generated mixed) ≤ Js.MAX_EXACT) as Hmax by (by vm_compute).
  destruct (correlation_id_policy mixed Hmax) as (Hf & _ & Hs & Hg & _).
  split_and!; [exact Hmax | | | |].
  - by apply (Hf 2%nat {["request-id" := HString "zzz"]} (HString "zzz")).
  - by apply (Hs 1%nat (with_id "1") "1").
  - by apply (Hg 0%nat no_header).
  - by apply (Hg 3%nat no_header).
Defined.

End ReqIdSpec.

(** ** The proxy registry *)

Module ProxySpec.
Import Fastify Proxy.

Section WithInstance.
Context {F : Type} `{FastifyInstance F}.
Variable Endpoint_Proxy : string.
Variable replaceUrl : string → gmap string string → string.

Abbreviation register := (registerProxyHandler Endpoint_Proxy replaceUrl).
Abbreviation register_all := (register_all Endpoint_Proxy replaceUrl).

(** A call on an initialised module either throws in [fastify.route]
    and changes nothing, or completes and appends the name. *)
Lemma register_initialised path config f names :
  (∃ e, register path config (mkState (Some f) (Some names))
        = (inl e, mkState (Some f) (Some names)))
  ∨ (∃ f', register path config (mkState (Some f) (Some names))
           = (inr (), mkState (Some f') (Some (names ++ [path])))).
Proof.
  unfold registerProxyHandler. simpl.
  destruct (route _ f) as [e|f']; [left; by exists e | right; by exists f'].
Qed.

Lemma succeeded_length calls : ∀ oks,
  length oks = length calls →
  length (succeeded calls oks) = length (filter (eq true) oks).
Proof.
  induction calls as [|[path config] calls IH]; intros [|[] oks] Hlen;
    try done; injection Hlen as Hlen; rewrite filter_cons.
  - rewrite decide_True by done. simpl. by rewrite IH.
  - rewrite decide_False by done. simpl. by rewrite IH.
Qed.

Lemma register_all_names calls : ∀ f names,
  let r := register_all calls (mkState (Some f) (Some names)) in
  proxyNameList r.2 = Some (names ++ succeeded calls r.1)
  ∧ length r.1 = length calls.
Proof.
  induction calls as [|[path config] calls IH]; intros f names; simpl.
  { by rewrite app_nil_r. }
  destruct (register_initialised path config f names) as [[e ->]|[f' ->]].
  - specialize (IH f names). simpl in IH.
    destruct (register_all calls _) as [oks st]. simpl in *.
    destruct IH as [-> ->]. done.
  - specialize (IH f' (names ++ [path])). simpl in IH.
    destruct (register_all calls _) as [oks st]. simpl in *.
    destruct IH as [-> ->]. by rewrite <- app_assoc.
Qed.

(** C2. For every sequence of register calls into the proxy registry,
    starting when [FireboomProxiesPlugin] has set it up, the listing
    function [getproxyNameList] returns exactly the names of the calls
    that completed, in call order, and the length of that list is the
    number of completed calls. *)
Theorem listNames_registration_order (f : F) (st0 : State F)
    (calls : list (string * ProxyConfig)) :
  let r := register_all calls (FireboomProxiesPlugin f st0) in
  getproxyNameList r.2 = Some (succeeded calls r.1)
  ∧ length (succeeded calls r.1) = length (filter (eq true) r.1)
  ∧ length r.1 = length calls.
Proof.
  pose proof (register_all_names calls f []) as Hnames. simpl in *.
  unfold FireboomProxiesPlugin, getproxyNameList.
  destruct (register_all calls _) as [oks st]. simpl in *.
  destruct Hnames as [-> Hlen]. split_and!; [done | | done].
  by apply succeeded_length.
Qed.

(** Before the plugin has run, every call throws and nothing is listed. *)
Lemma register_unloaded path config :
  ∃ e, register path config (unloaded (F:=F)) = (inl e, unloaded).
Proof. by eexists. Qed.

End WithInstance.

(** Registration order is kept; the second ["a"] clashes with the first
    in the route table, throws, and is not listed. *)
Example register_sample_names :
  let r := Samples.register_sample
             [("b", Samples.echo); ("a", Samples.echo); ("a", Samples.echo); ("c", Samples.echo)]
             (FireboomProxiesPlugin [] unloaded) in
  r.1 = [true; true; false; true] ∧ getproxyNameList r.2 = Some ["b"; "a"; "c"].
Proof. by vm_compute. Qed.

End ProxySpec.

(** ** The health report *)

Module HealthSpec.
Import Fastify Health.

Section WithInstance.
Context {F : Type}.

Lemma report_lookup (m : Module) (w : World F) :
  report m w !! "customizes" = Some (names_value (getCustomizeNameList w))
  ∧ report m w !! "functions" = Some (names_value (getFunctionNameList w))
  ∧ report m w !! "proxys" = Some (names_value (Proxy.getproxyNameList (proxy w)))
  ∧ report m w !! "time" = Some (Js.Str (startTime m)).
Proof. unfold report. split_and!; by simplify_map_eq. Qed.

Lemma report_dom (m : Module) (w : World F) :
  dom (report m w) = ({["customizes"; "functions"; "proxys"; "time"]} : gset string).
Proof. unfold report. rewrite !dom_insert_L, dom_singleton_L. set_solver. Qed.

Lemma report_other (m : Module) (w : World F) k :
  k ≠ "customizes" → k ≠ "functions" → k ≠ "proxys" → k ≠ "time" →
  report m w !! k = None.
Proof. intros. unfold report. by simplify_map_eq. Qed.

Lemma names_value_listed name (o : option (list string)) l :
  names_value o = Js.Arr l → Js.Str name ∈ l → ∃ names, o = Some names ∧ name ∈ names.
Proof.
  destruct o as [names|]; [|done]. intros [= <-] Hin. exists names. split; [done|].
  apply list_elem_of_fmap in Hin as (x & [= ->] & Hx). done.
Qed.

(** Where a name can be listed in a report, and what that means. *)
Lemma listed_inv (m : Module) (w : World F) k name :
  listed k name (report m w) →
  (k = "customizes" ∧ ∃ l, getCustomizeNameList w = Some l ∧ name ∈ l)
  ∨ (k = "functions" ∧ ∃ l, getFunctionNameList w = Some l ∧ name ∈ l)
  ∨ (k = "proxys" ∧ ∃ l, Proxy.getproxyNameList (proxy w) = Some l ∧ name ∈ l).
Proof.
  intros (l & Hk & Hin). destruct (report_lookup m w) as (Hc & Hf & Hp & Ht).
  destruct (decide (k = "customizes")) as [->|?].
  { left. split; [done|]. rewrite Hc in Hk. simplify_eq. by eapply names_value_listed. }
  destruct (decide (k = "functions")) as [->|?].
  { right; left. split; [done|]. rewrite Hf in Hk. simplify_eq. by eapply names_value_listed. }
  destruct (decide (k = "proxys")) as [->|?].
  { right; right. split; [done|]. rewrite Hp in Hk. simplify_eq. by eapply names_value_listed. }
  destruct (decide (k = "time")) as [->|?].
  { rewrite Ht in Hk. done. }
  rewrite report_other in Hk by done. done.
Qed.

Lemma listed_intro (m : Module) (w : World F) k name o l :
  report m w !! k = Some (names_value o) → o = Some l → name ∈ l →
  listed k name (report m w).
Proof.
  intros Hk -> Hin. exists (Js.Str <$> l). split; [done|].
  apply list_elem_of_fmap. by exists name.
Qed.

(** C3 (amended). Every call to the health endpoint returns an object
    with [status] ["ok"] and a [report] holding the start time captured
    when the module was loaded and the name lists of three registries,
    [customizes], [functions] and [proxys] (there is no list of hooks),
    each the registry's list at the time of the call; once the category
    plugins have run and before any extension is registered, the three
    lists are empty and the status is ["ok"]. *)
Theorem health_snapshot (toISOString : Z → string) (w0 w : World F) :
  let m := load toISOString w0 in
  FireboomHealthPlugun m w !! "status" = Some (Js.Str "ok")
  ∧ FireboomHealthPlugun m w !! "report" = Some (Js.Obj (report m w))
  ∧ report m w !! "time" = Some (Js.Str (toISOString (now w0)))
  ∧ report m w !! "customizes" = Some (names_value (getCustomizeNameList w))
  ∧ report m w !! "functions" = Some (names_value (getFunctionNameList w))
  ∧ report m w !! "proxys" = Some (names_value (Proxy.getproxyNameList (proxy w)))
  ∧ dom (report m w) = ({["customizes"; "functions"; "proxys"; "time"]} : gset string)
  ∧ (∀ t (f : F),
       FireboomHealthPlugun m (booted t f) !! "status" = Some (Js.Str "ok")
            ∧ report m (booted t f) !! "customizes" = Some (Js.Arr [])
            ∧ report m (booted t f) !! "functions" = Some (Js.Arr [])
            ∧ report m (booted t f) !! "proxys" = Some (Js.Arr [])).
Proof.
  intros m. destruct (report_lookup m w) as (Hc & Hf & Hp & Ht).
  split_and!; [done | done | done | done | done | done | apply report_dom |].
  intros t f. destruct (report_lookup m (booted t f)) as (Hc' & Hf' & Hp' & _).
  split_and!; done.
Qed.

(** C10. The time in the health report is the one captured when the
    module was loaded: every call, whatever the clock and the registries
    are by then, returns that same value. *)
Theorem start_time_captured_once (toISOString : Z → string) (w0 w1 w2 : World F) :
  let m := load toISOString w0 in
  FireboomHealthPlugun m w1 !! "report" = Some (Js.Obj (report m w1))
  ∧ report m w1 !! "time" = Some (Js.Str (toISOString (now w0)))
  ∧ report m w2 !! "time" = report m w1 !! "time".
Proof.
  intros m. destruct (report_lookup m w1) as (_ & _ & _ & Ht1).
  destruct (report_lookup m w2) as (_ & _ & _ & Ht2).
  split; [done|]. by rewrite Ht1, Ht2.
Qed.

Context `{FastifyInstance F}.
Variable Endpoint_Proxy : string.
Variable replaceUrl : string → gmap string string → string.

(** A completed registration appends the name to the proxy list and
    leaves the rest of the world alone. *)
Lemma register_proxy_completed path config (w w' : World F) :
  register_proxy Endpoint_Proxy replaceUrl path config w = (inr (), w') →
  ∃ names, Proxy.getproxyNameList (proxy w) = Some names
           ∧ Proxy.getproxyNameList (proxy w') = Some (names ++ [path])
           ∧ customizeNameList w' = customizeNameList w
           ∧ functionNameList w' = functionNameList w
           ∧ now w' = now w.
Proof.
  unfold register_proxy, Proxy.registerProxyHandler, Proxy.getproxyNameList.
  destruct (Proxy.fastify (proxy w)) as [f|]; [|done].
  destruct (route _ f) as [e|f']; [done|].
  destruct (Proxy.proxyNameList (proxy w)) as [names|]; [|done].
  intros [= <-]. by exists names.
Qed.

(** C4. After ["orders"] has been registered in the proxy category, the
    health report lists it under [proxys]; it is under another key only
    if it was there before the registration, and on a freshly booted
    server it is under no other key. *)
Theorem orders_listed_under_proxys (m : Module) config (w w' : World F) :
  register_proxy Endpoint_Proxy replaceUrl "orders" config w = (inr (), w') →
  listed "proxys" "orders" (report m w')
  ∧ (∀ k, k ≠ "proxys" → listed k "orders" (report m w') →
          listed k "orders" (report m w))
  ∧ (∀ t (f : F), w = booted t f →
       ∀ k, k ≠ "proxys" → ¬ listed k "orders" (report m w')).
Proof.
  intros Hreg.
  destruct (register_proxy_completed _ _ _ _ Hreg) as (names & Hold & Hnew & Hc & Hf & _).
  destruct (report_lookup m w') as (Hc' & Hf' & Hp' & _).
  destruct (report_lookup m w) as (Hc0 & Hf0 & _ & _).
  assert (∀ k, k ≠ "proxys" → listed k "orders" (report m w') →
            listed k "orders" (report m w)) as Hother.
  { intros k Hk Hl. apply listed_inv in Hl as [(-> & l & Hl & Hin)|[(-> & l & Hl & Hin)|(-> & _)]];
      [| |done].
    - eapply listed_intro; [exact Hc0| |exact Hin].
      unfold getCustomizeNameList in *. congruence.
    - eapply listed_intro; [exact Hf0| |exact Hin].
      unfold getFunctionNameList in *. congruence. }
  split_and!; [|done|].
  - eapply listed_intro; [exact Hp'|exact Hnew|]. set_solver.
  - intros t f -> k Hk Hl. apply Hother in Hl; [|done].
    apply listed_inv in Hl as [(_ & l & Hl & Hin)|[(_ & l & Hl & Hin)|(-> & _)]];
      [| |done]; simplify_eq/=; set_solver.
Qed.

End WithInstance.

(** C3, as stated, fails on the code: the report has the four keys
    [customizes], [functions], [proxys] and [time], and none for hooks. *)
Lemma health_report_has_no_hooks :
  report Samples.loaded_at_boot Samples.fresh !! "hooks" = None
  ∧ dom (report Samples.loaded_at_boot Samples.fresh)
    = ({["customizes"; "functions"; "proxys"; "time"]} : gset string)
  ∧ FireboomHealthPlugun Samples.loaded_at_boot Samples.fresh !! "hooks" = None.
Proof. split_and!; [done | apply report_dom | done]. Qed.

(** The theorem on a fresh server, with the route table as the instance. *)
Lemma orders_listed_under_proxys_sample :
  let w' := (register_proxy Samples.Endpoint_Proxy Samples.replaceUrl
               "orders" Samples.echo Samples.fresh).2 in
  register_proxy Samples.Endpoint_Proxy Samples.replaceUrl
    "orders" Samples.echo Samples.fresh = (inr (), w')
  ∧ listed "proxys" "orders" (report Samples.loaded_at_boot w')
  ∧ ¬ listed "customizes" "orders" (report Samples.loaded_at_boot w')
  ∧ ¬ listed "functions" "orders" (report Samples.loaded_at_boot w').
Proof.
  intros w'.
  assert (register_proxy Samples.Endpoint_Proxy Samples.replaceUrl
            "orders" Samples.echo Samples.fresh = (inr (), w')) as Hreg by reflexivity.
  destruct (orders_listed_under_proxys Samples.Endpoint_Proxy Samples.replaceUrl
              Samples.loaded_at_boot Samples.echo Samples.fresh w' Hreg)
    as (Hin & _ & Hfresh).
  split_and!; [done | done | |].
  - by apply (Hfresh 0 []).
  - by apply (Hfresh 0 []).
Defined.

End HealthSpec.

(** ** The request context *)

Module ServerSpec.
Import Fastify Server.

Lemma get_nullish v k :
  Js.nullish v = true →
  ∃ e, Js.get v k = inl e ∧ Js.name e = "TypeError" ∧ Js.statusCode e = None.
Proof. destruct v; try done; intros _; by eexists. Qed.

Lemma get_defined v k : Js.nullish v = false → ∃ x, Js.get v k = inr x.
Proof. destruct v; try done; intros _; by eexists. Qed.

(** [preHandler] throws exactly when the body or its [__wg] field is
    [undefined] or [null]; otherwise it reads the two fields unchecked. *)
Lemma preHandler_cases config req :
  (∃ e, preHandler config req = inl e
        ∧ Js.name e = "TypeError" ∧ Js.statusCode e = None
        ∧ (Js.nullish (body req) = true
           ∨ ∃ wg, Js.get (body req) "__wg" = inr wg ∧ Js.nullish wg = true))
  ∨ (∃ wg cr u, Js.get (body req) "__wg" = inr wg ∧ Js.nullish wg = false
                ∧ Js.get wg "clientRequest" = inr cr
                ∧ Js.get wg "user" = inr u
                ∧ preHandler config req = inr (with_ctx req (context_of config cr u))).
Proof.
  unfold preHandler.
  destruct (Js.nullish (body req)) eqn:Hb.
  { left. destruct (get_nullish _ "__wg" Hb) as (e & -> & ? & ?). exists e. auto. }
  destruct (get_defined _ "__wg" Hb) as [wg Hwg]. rewrite Hwg. simpl.
  destruct (Js.nullish wg) eqn:Hn.
  { left. destruct (get_nullish _ "clientRequest" Hn) as (e & -> & ? & ?).
    exists e. split_and!; [done..|]. right. by exists wg. }
  right. destruct (get_defined _ "clientRequest" Hn) as [cr Hcr].
  destruct (get_defined _ "user" Hn) as [u Hu].
  exists wg, cr, u. rewrite Hcr, Hu. done.
Qed.

Lemma dispatch_hook_threw config r req e :
  preHandler config req = inl e →
  dispatch config r req = ([HookThrew e], defaultErrorHandler e).
Proof. intros He. unfold dispatch. by rewrite He. Qed.

Lemma dispatch_handler_ran config r req c :
  preHandler config req = inr (with_ctx req c) →
  dispatch config r req
  = match route_handler r (with_ctx req c) fresh_reply with
    | inl e => ([ContextBuilt c; HandlerRan (Some c); HandlerThrew e], defaultErrorHandler e)
    | inr reply => ([ContextBuilt c; HandlerRan (Some c)], reply)
    end.
Proof. intros Hc. unfold dispatch. rewrite Hc. simpl. by destruct (route_handler _ _ _). Qed.

Lemma defaultErrorHandler_TypeError e :
  Js.statusCode e = None → reply_statusCode (defaultErrorHandler e) = 500.
Proof. intros He. unfold defaultErrorHandler. by rewrite He. Qed.

(** The events of a request whose hook completed with context [c]. *)
Lemma dispatch_events config r req c :
  preHandler config req = inr (with_ctx req c) →
  ∃ tail, (dispatch config r req).1 = ContextBuilt c :: HandlerRan (Some c) :: tail
          ∧ (tail = [] ∨ ∃ e, tail = [HandlerThrew e]).
Proof.
  intros Hc. rewrite (dispatch_handler_ran _ _ _ _ Hc).
  destruct (route_handler _ _ _) as [e|reply]; eexists; split; eauto.
Qed.

Lemma dispatch_handler_only_second config r req c :
  preHandler config req = inr (with_ctx req c) →
  contexts_built (dispatch config r req).1 = 1%nat
  ∧ ∀ j c', (dispatch config r req).1 !! j = Some (HandlerRan c') →
            j = 1%nat ∧ c' = Some c.
Proof.
  intros Hok. destruct (dispatch_events config r req c Hok) as (tail & -> & Htail).
  split; [by destruct Htail as [->|[e ->]]|].
  intros j c' Hj. destruct j as [|[|j]]; simplify_eq/=; [done|].
  destruct Htail as [->|[e ->]]; [done|]. by destruct j.
Qed.

(** C5, as stated, fails on the code: for a request without body the hook
    throws at [req.body.__wg], so that no context is built, not one, and
    the handler does not run. *)
Lemma no_body_builds_no_context :
  (dispatch Samples.config Samples.orders_route Samples.no_body).1
  = [HookThrew (Js.TypeError "Cannot read properties of undefined (reading '__wg')")]
  ∧ contexts_built (dispatch Samples.config Samples.orders_route Samples.no_body).1 = 0%nat
  ∧ preHandler Samples.config Samples.no_body
    = inl (Js.TypeError "Cannot read properties of undefined (reading '__wg')").
Proof. split_and!; by vm_compute. Qed.

(** C5 (amended). For every dispatched request whose body carries the
    [__wg] envelope (the body and its [__wg] field are neither [undefined]
    nor [null]), the hook completes and exactly one context is built,
    before the route handler, which runs once and finds that context in
    [req.ctx]; the platform client in it is bound to the [clientRequest]
    read from the envelope and has the timeout 3000 ms, whatever the
    configuration and the request are. For a request without body or
    envelope the hook throws: no context is built and no handler runs. *)
Theorem context_built_once_for_envelope config r req :
  let events := (dispatch config r req).1 in
  (∀ wg, Js.get (body req) "__wg" = inr wg → Js.nullish wg = false →
     ∃ cr u,
       Js.get wg "clientRequest" = inr cr
       ∧ Js.get wg "user" = inr u
       ∧ preHandler config req = inr (with_ctx req (context_of config cr u))
       ∧ contexts_built events = 1%nat
       ∧ events !! 0%nat = Some (ContextBuilt (context_of config cr u))
       ∧ events !! 1%nat = Some (HandlerRan (Some (context_of config cr u)))
       ∧ (∀ j c, events !! j = Some (HandlerRan c) →
            j = 1%nat ∧ c = Some (context_of config cr u))
       ∧ clientRequest (context_of config cr u) = cr
       ∧ oc_clientRequest (operationsClient (context_of config cr u)) = cr
       ∧ requestTimeoutMs (operationsClient (context_of config cr u)) = 3000)
  ∧ ((Js.nullish (body req) = true
      ∨ ∃ wg, Js.get (body req) "__wg" = inr wg ∧ Js.nullish wg = true) →
     contexts_built events = 0%nat
     ∧ (∃ e, events = [HookThrew e])
     ∧ ∀ j c, events !! j ≠ Some (HandlerRan c)).
Proof.
  intros events. subst events. split.
  - intros wg Hwg Hn.
    destruct (preHandler_cases config req)
      as [(e & _ & _ & _ & [Hb|(wg' & Hwg' & Hn')])|
          (wg' & cr & u & Hwg' & _ & Hcr & Hu & Hok)].
    + destruct (get_nullish _ "__wg" Hb) as (e' & He' & _). congruence.
    + congruence.
    + assert (wg' = wg) as -> by congruence. exists cr, u.
      destruct (dispatch_events config r req _ Hok) as (tail & Hev & _).
      destruct (dispatch_handler_only_second config r req _ Hok) as [Hone Honly].
      rewrite Hev in *. split_and!; done.
  - intros Hbad.
    assert (∃ e, preHandler config req = inl e) as [e He].
    { unfold preHandler. destruct Hbad as [Hb|(wg & Hwg & Hn)].
      - destruct (get_nullish _ "__wg" Hb) as (e & -> & _). by exists e.
      - rewrite Hwg. simpl.
        destruct (get_nullish _ "clientRequest" Hn) as (e & -> & _). by exists e. }
    rewrite (dispatch_hook_threw _ _ _ _ He). simpl.
    split_and!; [done|by exists e|]. by intros [|[|j]] c.
Qed.

(** The theorem at [Samples.anonymous], dispatched to the proxy route
    ["orders"]: one context, built before the handler ran. *)
Lemma context_built_once_for_envelope_sample :
  let events := (dispatch Samples.config Samples.orders_route Samples.anonymous).1 in
  let k := context_of Samples.config Samples.caller Js.Undefined in
  contexts_built events = 1%nat
  ∧ events !! 0%nat = Some (ContextBuilt k)
  ∧ events !! 1%nat = Some (HandlerRan (Some k))
  ∧ requestTimeoutMs (operationsClient k) = 3000.
Proof.
  intros events k.
  destruct (context_built_once_for_envelope Samples.config Samples.orders_route
              Samples.anonymous) as [Hbuilt _].
  destruct (Hbuilt (Js.Obj {["clientRequest" := Samples.caller]}) eq_refl eq_refl)
    as (cr & u & Hcr & Hu & _ & Hone & H0 & H1 & _ & _ & _ & Htime).
  injection Hcr as <-. injection Hu as <-.
  split_and!; done.
Defined.

Lemma dispatch_handler_index config r req c :
  preHandler config req = inr (with_ctx req c) →
  (dispatch config r req).1 !! 0%nat = Some (ContextBuilt c)
  ∧ (dispatch config r req).1 !! 1%nat = Some (HandlerRan (Some c))
  ∧ ∀ e, HookThrew e ∉ (dispatch config r req).1.
Proof.
  intros Hc. destruct (dispatch_events config r req c Hc) as (tail & -> & Htail).
  split_and!; [done..|]. intros e.
  intros Hin. apply elem_of_cons in Hin as [?|Hin]; [done|].
  apply elem_of_cons in Hin as [?|Hin]; [done|].
  destruct Htail as [->|[e' ->]]; [by apply elem_of_nil in Hin|].
  apply elem_of_cons in Hin as [?|Hin]; [done|]. by apply elem_of_nil in Hin.
Qed.

(** The handler given to [registerProxyHandler] is called with the context
    found in [req.ctx] and the view of the request. *)
Lemma proxy_handler_receives_context Endpoint_Proxy replaceUrl path pc req k reply :
  route_handler (Proxy.proxy_route Endpoint_Proxy replaceUrl path pc) (with_ctx req k) reply
  = Proxy.handler pc
      {| Proxy.req_body := body req; Proxy.req_headers := headers req;
         Proxy.req_method := method req; Proxy.req_query := query req |}
      (Some k) reply.
Proof. reflexivity. Qed.

(** C6. For every request whose envelope holds the caller request and no
    identity claim, the hook completes with [user] left [undefined], and
    the matched handler runs with that context. *)
Theorem missing_identity_still_handled config r req b o cr :
  body req = Js.Obj b →
  b !! "__wg" = Some (Js.Obj o) →
  o !! "clientRequest" = Some cr →
  o !! "user" = None →
  let k := context_of config cr Js.Undefined in
  preHandler config req = inr (with_ctx req k)
  ∧ user k = Js.Undefined
  ∧ clientRequest k = cr
  ∧ (dispatch config r req).1 !! 0%nat = Some (ContextBuilt k)
  ∧ (dispatch config r req).1 !! 1%nat = Some (HandlerRan (Some k))
  ∧ ∀ e, HookThrew e ∉ (dispatch config r req).1.
Proof.
  intros Hb Hwg Hcr Hu k.
  assert (preHandler config req = inr (with_ctx req k)) as Hok.
  { unfold preHandler. rewrite Hb. simpl. rewrite Hwg. simpl. rewrite Hcr. simpl. rewrite Hu.
    unfold with_ctx, k, context_of. by rewrite Hb. }
  destruct (dispatch_handler_index config r req k Hok) as (H0 & H1 & Hno).
  split_and!; done.
Qed.

(** The theorem at [Samples.anonymous], dispatched to the proxy route
    ["orders"]. *)
Lemma missing_identity_still_handled_sample :
  let k := context_of Samples.config Samples.caller Js.Undefined in
  preHandler Samples.config Samples.anonymous = inr (with_ctx Samples.anonymous k)
  ∧ user k = Js.Undefined
  ∧ (dispatch Samples.config Samples.orders_route Samples.anonymous).1 !! 1%nat
    = Some (HandlerRan (Some k)).
Proof.
  intros k.
  destruct (missing_identity_still_handled Samples.config Samples.orders_route
              Samples.anonymous
              {["__wg" := Js.Obj {["clientRequest" := Samples.caller]}]}
              {["clientRequest" := Samples.caller]} Samples.caller
              eq_refl eq_refl eq_refl eq_refl)
    as (Hok & Hu & _ & _ & Hran & _).
  split_and!; done.
Defined.

(** C7, as stated, fails on the code. A request whose envelope lacks the
    caller request is not failed: the context is built with
    [clientRequest] [undefined] and the handler runs, here answering with
    status 200. A request without a body makes the hook throw a
    [TypeError], which the default error handler answers with status 500,
    not with a client error. *)
Lemma missing_caller_request_not_rejected :
  (dispatch Samples.config Samples.orders_route Samples.empty_envelope
   = ([ContextBuilt Samples.empty_context; HandlerRan (Some Samples.empty_context)],
      {| reply_statusCode := 200; reply_payload := Js.Undefined |})
   ∧ clientRequest Samples.empty_context = Js.Undefined)
  ∧ ((dispatch Samples.config Samples.orders_route Samples.no_body).1
     = [HookThrew (Js.TypeError "Cannot read properties of undefined (reading '__wg')")]
     ∧ reply_statusCode (dispatch Samples.config Samples.orders_route Samples.no_body).2 = 500
     ∧ is_4xx 500 = false).
Proof. split_and!; by vm_compute. Qed.

(** C7 (amended). The hook does not validate the envelope. It throws
    exactly when the body, or the [__wg] field of the body, is [undefined]
    or [null]; the thrown [TypeError] carries no status code, the handler
    does not run, and the default error handler answers with status 500.
    In every other case the hook completes, also when [clientRequest] is
    missing from the envelope: the context then holds whatever
    [__wg.clientRequest] evaluates to, [undefined] when it is absent, and
    the handler runs. *)
Theorem envelope_is_not_validated config r req :
  (∀ e, preHandler config req = inl e →
     (Js.nullish (body req) = true
      ∨ ∃ wg, Js.get (body req) "__wg" = inr wg ∧ Js.nullish wg = true)
     ∧ dispatch config r req = ([HookThrew e], defaultErrorHandler e)
     ∧ reply_statusCode (dispatch config r req).2 = 500
     ∧ is_4xx (reply_statusCode (dispatch config r req).2) = false)
  ∧ (Js.nullish (body req) = true → ∃ e, preHandler config req = inl e)
  ∧ (∀ wg, Js.get (body req) "__wg" = inr wg → Js.nullish wg = true →
       ∃ e, preHandler config req = inl e)
  ∧ (∀ wg, Js.get (body req) "__wg" = inr wg → Js.nullish wg = false →
       ∃ cr u, Js.get wg "clientRequest" = inr cr
               ∧ Js.get wg "user" = inr u
               ∧ preHandler config req = inr (with_ctx req (context_of config cr u))
               ∧ (dispatch config r req).1 !! 1%nat
                 = Some (HandlerRan (Some (context_of config cr u))))
  ∧ (∀ b o, body req = Js.Obj b → b !! "__wg" = Some (Js.Obj o) →
       o !! "clientRequest" = None →
       ∃ u, (dispatch config r req).1 !! 1%nat
            = Some (HandlerRan (Some (context_of config Js.Undefined u)))).
Proof.
  pose proof (preHandler_cases config req) as Hcases.
  assert (∀ wg, Js.get (body req) "__wg" = inr wg → Js.nullish wg = false →
       ∃ cr u, Js.get wg "clientRequest" = inr cr
               ∧ Js.get wg "user" = inr u
               ∧ preHandler config req = inr (with_ctx req (context_of config cr u))
               ∧ (dispatch config r req).1 !! 1%nat
                 = Some (HandlerRan (Some (context_of config cr u)))) as Hdefined.
  { intros wg Hwg Hn.
    destruct Hcases as [(e & He & _ & _ & [Hb|(wg' & Hwg' & Hn')])|
                        (wg' & cr & u & Hwg' & _ & Hcr & Hu & Hok)].
    - destruct (get_nullish _ "__wg" Hb) as (e' & He' & _). congruence.
    - congruence.
    - assert (wg' = wg) as -> by congruence. exists cr, u.
      destruct (dispatch_handler_index config r req _ Hok) as (_ & H1 & _). done. }
  split_and!.
  - intros e He.
    destruct Hcases as [(e' & He' & _ & Hcode & Hwhy)|(wg & cr & u & _ & _ & _ & _ & Hok)];
      [|congruence].
    assert (e' = e) as -> by congruence.
    rewrite (dispatch_hook_threw _ _ _ _ He).
    pose proof (defaultErrorHandler_TypeError _ Hcode) as H500.
    split_and!; [done | done | exact H500 |].
    change (is_4xx (reply_statusCode (defaultErrorHandler e)) = false). by rewrite H500.
  - intros Hb. unfold preHandler.
    destruct (get_nullish _ "__wg" Hb) as (e & -> & _). by exists e.
  - intros wg Hwg Hn. unfold preHandler. rewrite Hwg. simpl.
    destruct (get_nullish _ "clientRequest" Hn) as (e & -> & _). by exists e.
  - done.
  - intros b o Hb Hwg Hcr.
    destruct (Hdefined (Js.Obj o)) as (cr & u & Hcr' & _ & _ & Hran); [|done|].
    { rewrite Hb. simpl. by rewrite Hwg. }
    simpl in Hcr'. rewrite Hcr in Hcr'. injection Hcr' as <-. by exists u.
Qed.

End ServerSpec.

(** ** The extension loader *)

Module LoaderSpec.
Import Fastify Server Loading.

Section Startup.
Context {W : Type}.
Variable glob : string → W → list string.
Variable resolve : string → string → string.
Variable require : string → W → Js.Completion () * W.
Variable register_plugins : W → Js.Completion () * W.
Variable __dirname : string.

(** Files that all load are all required, in order. *)
Lemma require_each_loads entries w w' :
  loads require entries w w' →
  require_each require entries w = (entries, (inr (), w')).
Proof.
  induction 1 as [w|entry rest w w1 w2 Hreq _ IH]; [done|].
  simpl. by rewrite Hreq, IH.
Qed.

(** The loop stops at the first file that throws, with its error. *)
Lemma require_each_throws pre entry post w wp w' e :
  loads require pre w wp →
  require entry wp = (inl e, w') →
  require_each require (pre ++ entry :: post) w = (pre ++ [entry], (inl e, w')).
Proof.
  intros Hpre Hthrow.
  induction Hpre as [w|entry0 rest w w1 w2 Hreq _ IH]; simpl.
  - by rewrite Hthrow.
  - by rewrite Hreq, IH.
Qed.

(** Of the files of a scan, one throws after the ones before it loaded,
    or all load. *)
Lemma loads_or_throws entries : ∀ w,
  (∃ pre entry post wp e w',
     entries = pre ++ entry :: post
     ∧ loads require pre w wp ∧ require entry wp = (inl e, w'))
  ∨ (∃ w', loads require entries w w').
Proof.
  induction entries as [|entry rest IH]; intros w.
  { right. exists w. constructor. }
  destruct (require entry w) as [[e|[]] w1] eqn:Hreq.
  - left. exists [], entry, rest, w, e, w1. split_and!; [done|constructor|done].
  - destruct (IH w1) as [(pre & entry' & post & wp & e & w' & -> & Hpre & Hthrow)|[w' Hall]].
    + left. exists (entry :: pre), entry', post, wp, e, w'.
      split_and!; [done| |done]. by apply loads_cons with w1.
    + right. exists w'. by apply loads_cons with w1.
Qed.

Lemma require_each_completed called entries : ∀ w w',
  require_each require entries w = (called, (inr (), w')) →
  loads require entries w w'.
Proof.
  intros w w' Hrun. destruct (loads_or_throws entries w)
    as [(pre & entry & post & wp & e & w0 & -> & Hpre & Hthrow)|[w0 Hall]].
  - rewrite (require_each_throws pre entry post w wp w0 e Hpre Hthrow) in Hrun. done.
  - rewrite (require_each_loads entries w w0 Hall) in Hrun. by simplify_eq.
Qed.

(** C8. At startup, once the category plugins are registered, the loader
    scans the one pattern made of [__dirname], the five directories
    [customize], [global], [operation], [storage] and [proxy], and the
    suffix [js] when [NODE_ENV] is ["production"] and [ts] otherwise, and
    requires the entries in scan order. If a file throws when it is
    required, after the files before it loaded, [startServer] fails with
    that error: the file was required, the later ones were not, and the
    shutdown handler is not installed and the server does not listen. If
    all files load, all were required and the server goes on to listen.
    One of the two is always the case. *)
Theorem throwing_file_aborts_startup (config : HookServerConfiguration)
    (NODE_ENV : option string) (w w1 : W) :
  register_plugins w = (inr (), w1) →
  let entries :=
    glob (resolve __dirname
            ("./{customize,global,operation,storage,proxy}/**/*."
             +:+ (if decide (NODE_ENV = Some "production") then "js" else "ts"))) w1 in
  let run := startServer glob resolve require register_plugins __dirname config NODE_ENV w in
  (∀ pre entry post wp e w',
     entries = pre ++ entry :: post →
     loads require pre w1 wp →
     require entry wp = (inl e, w') →
     run = (pre ++ [entry], [], (inl e, w')))
  ∧ (∀ w', loads require entries w1 w' →
       run = (entries, [InstallShutdown 500; Listen (listen config)], (inr (), w')))
  ∧ ((∃ pre entry post wp e w',
        entries = pre ++ entry :: post
        ∧ loads require pre w1 wp ∧ require entry wp = (inl e, w'))
     ∨ (∃ w', loads require entries w1 w')).
Proof.
  intros Hreg entries run. subst run. unfold startServer, load_extensions. rewrite Hreg.
  change (glob (pattern resolve __dirname NODE_ENV) w1) with entries.
  clearbody entries. split_and!.
  - intros pre entry post wp e w' -> Hpre Hthrow.
    by rewrite (require_each_throws pre entry post w1 wp w' e Hpre Hthrow).
  - intros w' Hall. by rewrite (require_each_loads entries w1 w' Hall).
  - apply loads_or_throws.
Qed.

End Startup.

(** A process whose second file throws: the first two files are
    required, the third is not, and nothing is started. *)
Example startServer_broken_file :
  startServer Samples.scan Samples.join_path Samples.load_module Samples.plugins_ok
    "/srv" Samples.config None []
  = (["/srv/customize/a.ts"; "/srv/global/broken.ts"], [],
     (inl {| Js.name := "Error"; Js.message := "broken"; Js.statusCode := None |},
      ["/srv/customize/a.ts"])).
Proof. by vm_compute. Qed.

(** The theorem on that process: the throw of the second file fails
    [startServer]. *)
Lemma throwing_file_aborts_startup_sample :
  Samples.plugins_ok [] = (inr (), [])
  ∧ startServer Samples.scan Samples.join_path Samples.load_module Samples.plugins_ok
      "/srv" Samples.config None []
    = (["/srv/customize/a.ts"] ++ ["/srv/global/broken.ts"], [],
       (inl {| Js.name := "Error"; Js.message := "broken"; Js.statusCode := None |},
        ["/srv/customize/a.ts"])).
Proof.
  split; [reflexivity|].
  destruct (throwing_file_aborts_startup Samples.scan Samples.join_path
              Samples.load_module Samples.plugins_ok "/srv" Samples.config None [] []
              eq_refl) as (Hthrow & _ & _).
  apply (Hthrow ["/srv/customize/a.ts"] "/srv/global/broken.ts" ["/srv/proxy/orders.ts"]
           ["/srv/customize/a.ts"]).
  - reflexivity.
  - apply loads_cons with ["/srv/customize/a.ts"]; [reflexivity|apply loads_nil].
  - reflexivity.
Defined.

End LoaderSpec.

(** ** Graceful shutdown *)

Module ShutdownSpec.
Import Shutdown.

(** Decides the guards of [tick] from the arithmetic at hand. *)
Ltac tick_step :=
  unfold Shutdown.tick; simpl;
  repeat first [rewrite decide_False by lia | rewrite decide_True by lia].

Section CloseWithGrace.
Variable delay : nat.
Variable t : Trigger.
Variable close : Settles.

Abbreviation after := (after delay t close).
Abbreviation tick := (tick delay t close).
Abbreviation draining := (draining t).

Lemma after_S n : after (S n) = tick (after n).
Proof. reflexivity. Qed.

(** The callback logs the error, if any, and waits for [close]. *)
Lemma after_0 : after 0 = draining 0.
Proof.
  unfold Shutdown.after, Shutdown.draining, first_log. simpl.
  unfold on_trigger, resume, callback. simpl. by destruct (err t).
Qed.

Lemma tick_closed p code : phase p = Closed code → tick p = p.
Proof. intros Hp. unfold Shutdown.tick. by rewrite Hp. Qed.

(** A tick leaves the draining state only for [Closed]. *)
Lemma tick_draining n :
  tick (draining n) = draining (S n) ∧ (n < delay)%nat
  ∨ ∃ code, phase (tick (draining n)) = Closed code.
Proof.
  unfold Shutdown.tick. simpl.
  destruct (decide (delay ≤ n)%nat); [right; by eexists|].
  destruct close as [ms|ms e|]; try case_decide; simpl;
    (by right; eexists) || (left; split; [done|lia]).
Qed.

(** [n] ms after the trigger the callback still waits, within the delay,
    or the process is closed. *)
Lemma after_phase n :
  after n = draining n ∧ (n ≤ delay)%nat
  ∨ ∃ code, phase (after n) = Closed code.
Proof.
  induction n as [|n IH]; [left; split; [apply after_0|lia]|].
  rewrite after_S. destruct IH as [[-> Hle]|[code Hc]].
  - destruct (tick_draining n) as [[-> Hlt]|Hc]; [left; split; [done|lia]|by right].
  - right. exists code. by rewrite (tick_closed _ _ Hc).
Qed.

Lemma after_stable n code :
  phase (after n) = Closed code → ∀ m, (n ≤ m)%nat → after m = after n.
Proof.
  intros Hc m Hm. induction Hm as [|m Hm IH]; [done|].
  rewrite after_S, IH. by eapply tick_closed.
Qed.

Lemma after_closed : ∃ code, phase (after (S delay)) = Closed code.
Proof.
  destruct (after_phase (S delay)) as [[_ Hle]|Hc]; [lia|done].
Qed.

(** The log only grows, and [close] stays called. *)
Lemma after_log_closing n : (∃ more, log (after n) = first_log t ++ more) ∧ closing (after n) = true.
Proof.
  induction n as [|n [[more IH] IHc]].
  { rewrite after_0. split; [exists []; by rewrite app_nil_r|done]. }
  rewrite after_S. destruct (after_phase n) as [[Hn _]|[code Hc]].
  - rewrite Hn. unfold Shutdown.tick. simpl.
    case_decide; simpl; [split; [by eexists|done]|].
    destruct close; try case_decide; unfold resume; simpl;
      (split; [(by eexists) || (exists []; by rewrite app_nil_r)|done]).
  - rewrite (tick_closed _ _ Hc). split; [by exists more|done].
Qed.

(** While [close] has not settled and the delay has not elapsed, the
    callback waits. *)
Lemma after_draining n :
  (n ≤ delay)%nat →
  match close with
  | Resolves ms | Rejects ms _ => (n ≤ ms)%nat
  | Pending => True
  end →
  after n = draining n.
Proof.
  intros Hdelay Hms. induction n as [|n IH]; [apply after_0|].
  rewrite after_S, IH by (lia || destruct close; lia || done).
  destruct close; tick_step; done.
Qed.

Lemma after_resolved ms :
  close = Resolves ms → (ms < delay)%nat →
  after (S ms) = exit (code_done t) (draining ms) [LogInfo "Fireboom hook server is closed"].
Proof.
  intros Hclose Hms. rewrite after_S, after_draining by (lia || by rewrite Hclose).
  rewrite Hclose. by tick_step.
Qed.

Lemma after_rejected ms e :
  close = Rejects ms e → (ms < delay)%nat →
  after (S ms) = exit 1 (draining ms) [ConsoleError e].
Proof.
  intros Hclose Hms. rewrite after_S, after_draining by (lia || by rewrite Hclose).
  rewrite Hclose. by tick_step.
Qed.

Lemma after_forced :
  close = Pending →
  after delay = draining delay ∧ after (S delay) = exit 1 (draining delay) [].
Proof.
  intros Hclose.
  assert (after delay = draining delay) as Hd by (apply after_draining; [lia|by rewrite Hclose]).
  split; [done|]. rewrite after_S, Hd. by tick_step.
Qed.

End CloseWithGrace.

(** The delay is the constant that [startServer] installs. *)
Example delay_installed : Server.InstallShutdown grace_delay = Server.InstallShutdown 500.
Proof. reflexivity. Qed.

(** C9. Whatever triggers the shutdown and however [fastify.close()]
    settles, the callback calls [close] at once and the process is closed
    at the latest one tick after the grace delay of 500 ms, and stays so.
    An error handed to the callback is logged first and changes none of
    this. If [close] resolves within the delay the process closes then,
    with the closing log line; if it rejects, the rejection is written to
    the console and the process closes; if it stays pending, as when a
    request is still in flight, the process drains for the whole delay and
    is then closed by the timer. *)
Theorem shutdown_reaches_closed (t : Trigger) (close : Settles) :
  let after := Shutdown.after grace_delay t close in
  (∃ code, phase (after (S grace_delay)) = Closed code
           ∧ ∀ m, (S grace_delay ≤ m)%nat → after m = after (S grace_delay))
  ∧ (∀ n, closing (after n) = true)
  ∧ (∀ e n, t = Uncaught e →
       LogError "Error when graceful shutdown Fireboom hook server" e ∈ log (after n))
  ∧ (∀ ms, close = Resolves ms → (ms < grace_delay)%nat →
       phase (after (S ms)) = Closed (match err t with Some _ => 1 | None => 0 end)
       ∧ LogInfo "Fireboom hook server is closed" ∈ log (after (S ms)))
  ∧ (∀ ms e, close = Rejects ms e → (ms < grace_delay)%nat →
       phase (after (S ms)) = Closed 1 ∧ ConsoleError e ∈ log (after (S ms)))
  ∧ (close = Pending →
       phase (after grace_delay) = Draining grace_delay
       ∧ phase (after (S grace_delay)) = Closed 1).
Proof.
  intros after. subst after. split_and!.
  - destruct (after_closed grace_delay t close) as [code Hc]. exists code.
    split; [done|]. by apply after_stable with code.
  - intros n. apply after_log_closing.
  - intros e n ->.
    destruct (after_log_closing grace_delay (Uncaught e) close n) as [[more ->] _].
    simpl. apply elem_of_cons. by left.
  - intros ms Hclose Hms. rewrite (after_resolved grace_delay t close ms Hclose Hms).
    split; [done|]. simpl. apply elem_of_app. right. apply elem_of_cons. by left.
  - intros ms e Hclose Hms. rewrite (after_rejected grace_delay t close ms e Hclose Hms).
    split; [done|]. simpl. apply elem_of_app. right. apply elem_of_cons. by left.
  - intros Hclose. destruct (after_forced grace_delay t close Hclose) as [-> ->]. done.
Qed.

(** A signal while a request keeps [close] pending, and one after which
    [close] resolves in 20 ms. *)
Example forced_after_delay :
  phase (Shutdown.after grace_delay (Signal "SIGTERM") Pending 500) = Draining 500
  ∧ Shutdown.after grace_delay (Signal "SIGTERM") Pending 501
    = {| phase := Closed 1; log := []; closing := true; suspended := [] |}.
Proof. by vm_compute. Qed.

Example clean_within_delay :
  Shutdown.after grace_delay (Signal "SIGTERM") (Resolves 20) 21
  = {| phase := Closed 0; log := [LogInfo "Fireboom hook server is closed"];
       closing := true; suspended := [] |}.
Proof. by vm_compute. Qed.

End ShutdownSpec.

(** ** Runs of the id generator *)

Module ReqIdExtra.
Import ReqId ReqIdRun.

(** X1. On a server whose counter is at most 2^53, a request that brings
    no id, neither in [request-id] nor in [x-request-id], gets the decimal
    form of the counter advanced by the number of ids generated up to and
    including its own, capped at 2^53: after 2^53 ids every further
    generated id is that same number. *)
Theorem generated_id_closed_form reqs id i h :
  id ≤ Js.MAX_EXACT →
  reqs !! i = Some h →
  brings_id h = false →
  serve reqs id !! i
  = Some (HString (Js.number_to_string
                     (Z.min Js.MAX_EXACT
                        (id + Z.of_nat (ReqId.generated (take (S i) reqs)))))).
Proof.
  intros Hid Hi Hu. by apply (ReqIdSpec.serve_generated_saturating reqs id i h).
Qed.

(** The theorem one id short of 2^53: the second request gets 2^53, as
    every later one would. *)
Lemma generated_id_closed_form_sample :
  MoreSamples.almost_saturated ≤ Js.MAX_EXACT
  ∧ serve MoreSamples.two_plain MoreSamples.almost_saturated !! 1%nat
    = Some (HString (Js.number_to_string
                       (Z.min Js.MAX_EXACT
                          (MoreSamples.almost_saturated
                           + Z.of_nat (ReqId.generated (take 2 MoreSamples.two_plain)))))).
Proof.
  assert (MoreSamples.almost_saturated ≤ Js.MAX_EXACT) as Hid by (by vm_compute).
  split; [exact Hid|].
  by apply (generated_id_closed_form MoreSamples.two_plain MoreSamples.almost_saturated
              1%nat Samples.no_header Hid).
Defined.

(** X2. Requests that bring their own id are invisible to the counter: the
    ids generated in a run are those of the run without these requests,
    from any counter value. *)
Theorem own_ids_leave_counter_alone reqs : ∀ id,
  generated_ids reqs (serve reqs id) = serve (without_own_id reqs) id.
Proof.
  induction reqs as [|h reqs IH]; intros id; [done|].
  unfold without_own_id. rewrite filter_cons. simpl.
  destruct (request_id h id) as [rid id'] eqn:Hgen. simpl.
  destruct (usable h) eqn:Hu.
  - rewrite decide_False by done.
    pose proof (ReqIdSpec.request_id_brought h id Hu) as Hid'.
    rewrite Hgen in Hid'. simpl in Hid'. subst id'. apply IH.
  - rewrite decide_True by done. simpl. rewrite Hgen. f_equal. apply IH.
Qed.

Example generated_ids_sample :
  generated_ids Samples.mixed (serve Samples.mixed initial_id)
  = [HString "1"; HString "2"].
Proof. by vm_compute. Qed.

End ReqIdExtra.

(** ** States of the proxy module *)

Module ProxyExtra.
Import Fastify Proxy ProxyStates.

Section WithInstance.
Context {F : Type} `{FastifyInstance F}.
Variable Endpoint_Proxy : string.
Variable replaceUrl : string → gmap string string → string.

Abbreviation register := (registerProxyHandler Endpoint_Proxy replaceUrl).
Abbreviation reachable := (reachable Endpoint_Proxy replaceUrl).

(** The two module variables are set together: in every state of a
    process both are unset or both are set. *)
Lemma reachable_consistent st :
  reachable st →
  (fastify st = None ∧ proxyNameList st = None)
  ∨ (is_Some (fastify st) ∧ is_Some (proxyNameList st)).
Proof.
  induction 1 as [|f st _ _|path config st _ IH]; [by left|by right|].
  unfold registerProxyHandler.
  destruct IH as [[Hf Hl]|[[f Hf] [names Hl]]]; rewrite Hf.
  - by left.
  - destruct (route _ f) as [e|f']; simpl; [right; by rewrite Hf, Hl|].
    rewrite Hl. by right.
Qed.

(** X3. In every state the proxy module can be in, a call of
    [registerProxyHandler] completes exactly when the plugin has bound an
    instance and [fastify.route] accepts the route; it then appends the
    name, so that no route is added without its name being listed. *)
Theorem register_completes_iff_route_accepted st path config :
  reachable st →
  (Js.completed (register path config st).1 = true
   ↔ ∃ f f', fastify st = Some f ∧ route (proxy_route Endpoint_Proxy replaceUrl path config) f = inr f')
  ∧ (∀ f f', fastify st = Some f →
       route (proxy_route Endpoint_Proxy replaceUrl path config) f = inr f' →
       ∃ names, proxyNameList st = Some names
                ∧ register path config st = (inr (), mkState (Some f') (Some (names ++ [path])))).
Proof.
  intros Hreach. destruct (reachable_consistent st Hreach) as [[Hf Hl]|[[f Hf] [names Hl]]].
  - split.
    + unfold registerProxyHandler. rewrite Hf. simpl. split; [done|].
      intros (f & f' & ? & _). congruence.
    + intros f f' ?. congruence.
  - split.
    + unfold registerProxyHandler. rewrite Hf, Hl.
      destruct (route _ f) as [e|f'] eqn:Hroute; simpl.
      * split; [done|]. intros (f0 & f' & ? & Hr). simplify_eq. congruence.
      * split; [|done]. intros _. by exists f, f'.
    + intros f0 f' ? Hroute. simplify_eq. exists names. split; [done|].
      unfold registerProxyHandler. by rewrite Hf, Hroute, Hl.
Qed.

(** X4. Before the plugin has run, every call of [registerProxyHandler]
    throws a [TypeError] and leaves the module as it was, however many
    calls are made, and the list stays [undefined]. *)
Theorem register_before_plugin (calls : list (string * ProxyConfig)) :
  (∀ path config, ∃ e, register path config unloaded = (inl e, unloaded)
                       ∧ Js.name e = "TypeError")
  ∧ register_all Endpoint_Proxy replaceUrl calls unloaded
    = (replicate (length calls) false, unloaded)
  ∧ getproxyNameList (register_all Endpoint_Proxy replaceUrl calls unloaded).2 = None.
Proof.
  assert (register_all Endpoint_Proxy replaceUrl calls unloaded
          = (replicate (length calls) false, unloaded (F:=F))) as Hall.
  { induction calls as [|[path config] calls IH]; [done|]. simpl. by rewrite IH. }
  split_and!; [by eexists | done | by rewrite Hall].
Qed.

(** X5. A call of [registerProxyHandler] changes the name list only when
    it completes: a call that throws leaves the list as it was, and a call
    that completes appends its name after the names already there. *)
Theorem register_changes_list_only_on_success st path config :
  match (register path config st).1 with
  | inl _ => proxyNameList (register path config st).2 = proxyNameList st
  | inr _ => ∃ names, proxyNameList st = Some names
                      ∧ proxyNameList (register path config st).2 = Some (names ++ [path])
  end.
Proof.
  unfold registerProxyHandler. destruct (fastify st) as [f|]; [|done].
  destruct (route _ f) as [e|f']; [done|].
  destruct (proxyNameList st) as [names|] eqn:Hl; simpl; [by exists names|done].
Qed.

End WithInstance.

(** The theorem on the module right after its plugin ran, with the route
    table as the instance. *)
Lemma register_completes_iff_route_accepted_sample :
  reachable Samples.Endpoint_Proxy Samples.replaceUrl MoreSamples.initialised
  ∧ (Js.completed (registerProxyHandler Samples.Endpoint_Proxy Samples.replaceUrl
                     "orders" Samples.echo MoreSamples.initialised).1 = true
     ↔ ∃ f f', fastify MoreSamples.initialised = Some f
               ∧ route (proxy_route Samples.Endpoint_Proxy Samples.replaceUrl
                          "orders" Samples.echo) f = inr f').
Proof.
  assert (reachable Samples.Endpoint_Proxy Samples.replaceUrl MoreSamples.initialised)
    as Hreach by (apply reachable_plugin, reachable_load).
  split; [exact Hreach|].
  apply (register_completes_iff_route_accepted Samples.Endpoint_Proxy Samples.replaceUrl
           MoreSamples.initialised "orders" Samples.echo Hreach).
Defined.

End ProxyExtra.

(** ** What the context hook reads and writes *)

Module ContextExtra.
Import Fastify Server.

(** X6. The outcome of the context hook is decided by the body of the
    request and the base URL of the configuration alone: two requests with
    the same body, under configurations with the same base URL, make the
    hook throw the same error or build the same context, whatever their
    headers, method, query and earlier [ctx] are. *)
Theorem context_depends_on_body_only config1 config2 req1 req2 :
  body req1 = body req2 →
  apiBaseURL config1 = apiBaseURL config2 →
  match preHandler config1 req1, preHandler config2 req2 with
  | inl e1, inl e2 => e1 = e2
  | inr r1, inr r2 => ctx r1 = ctx r2 ∧ is_Some (ctx r1)
  | _, _ => False
  end.
Proof.
  intros Hbody Hurl. unfold preHandler. rewrite Hbody, Hurl.
  destruct (Js.get (body req2) "__wg") as [e|wg]; simpl; [done|].
  destruct (Js.get wg "clientRequest") as [e|cr]; simpl; [done|].
  destruct (Js.get wg "user") as [e|u]; simpl; [done|]. by split.
Qed.

(** The theorem on [Samples.anonymous] and the same body sent with other
    headers, method, query and configuration. *)
Lemma context_depends_on_body_only_sample :
  body Samples.anonymous = body MoreSamples.anonymous_again
  ∧ apiBaseURL Samples.config = apiBaseURL MoreSamples.verbose_config
  ∧ match preHandler Samples.config Samples.anonymous,
          preHandler MoreSamples.verbose_config MoreSamples.anonymous_again with
    | inl e1, inl e2 => e1 = e2
    | inr r1, inr r2 => ctx r1 = ctx r2 ∧ is_Some (ctx r1)
    | _, _ => False
    end.
Proof.
  split_and!; [reflexivity | reflexivity |].
  exact (context_depends_on_body_only Samples.config MoreSamples.verbose_config
           Samples.anonymous MoreSamples.anonymous_again eq_refl eq_refl).
Defined.

(** X7. When the context hook completes, it has changed nothing of the
    request but [ctx], and running it again on its result changes nothing
    more. *)
Theorem preHandler_only_sets_ctx config req req' :
  preHandler config req = inr req' →
  body req' = body req
  ∧ headers req' = headers req
  ∧ method req' = method req
  ∧ query req' = query req
  ∧ preHandler config req' = inr req'.
Proof.
  intros Hok.
  destruct (ServerSpec.preHandler_cases config req)
    as [(e & He & _)|(wg & cr & u & _ & _ & _ & _ & Hok')]; [congruence|].
  rewrite Hok' in Hok. injection Hok as <-. split_and!; [done..|exact Hok'].
Qed.

(** The theorem on [Samples.anonymous]. *)
Lemma preHandler_only_sets_ctx_sample :
  let req' := with_ctx Samples.anonymous
                (context_of Samples.config Samples.caller Js.Undefined) in
  preHandler Samples.config Samples.anonymous = inr req'
  ∧ body req' = body Samples.anonymous
  ∧ preHandler Samples.config req' = inr req'.
Proof.
  intros req'.
  assert (preHandler Samples.config Samples.anonymous = inr req') as Hok by reflexivity.
  destruct (preHandler_only_sets_ctx Samples.config Samples.anonymous req' Hok)
    as (Hb & _ & _ & _ & Hagain).
  split_and!; done.
Defined.

End ContextExtra.

(** ** When the server starts to listen *)

Module LoaderExtra.
Import Fastify Server Loading.

Section Startup.
Context {W : Type}.
Variable glob : string → W → list string.
Variable resolve : string → string → string.
Variable require : string → W → Js.Completion () * W.
Variable register_plugins : W → Js.Completion () * W.
Variable __dirname : string.

(** X8. [startServer] installs the shutdown handler and listens exactly
    when the category plugins registered and every scanned file, required
    in scan order, loaded without a throw; in every other case it fails
    and does neither. If registering the plugins throws, it fails with
    that error before the scan: no file is required, whatever files
    exist. *)
Theorem listens_iff_all_loaded (config : HookServerConfiguration)
    (NODE_ENV : option string) (w : W) :
  let r := startServer glob resolve require register_plugins __dirname config NODE_ENV w in
  (r.1.2 = [InstallShutdown 500; Listen (listen config)]
   ↔ ∃ w1 w', register_plugins w = (inr (), w1)
              ∧ loads require (glob (pattern resolve __dirname NODE_ENV) w1) w1 w')
  ∧ (r.1.2 = [InstallShutdown 500; Listen (listen config)]
     ∨ r.1.2 = [] ∧ ∃ e, r.2.1 = inl e)
  ∧ (∀ e w1, register_plugins w = (inl e, w1) → r = ([], [], (inl e, w1))).
Proof.
  unfold startServer, load_extensions.
  destruct (register_plugins w) as [[e|[]] w1] eqn:Hreg; simpl.
  - split_and!; [|right; split; [done|by exists e]|by intros ? ? [= <- <-]].
    split; [done|]. by intros (? & ? & [=] & _).
  - destruct (require_each require _ w1) as [called [[e|[]] w']] eqn:Hloop; simpl.
    + split_and!; [|right; split; [done|by exists e]|done].
      split; [done|]. intros (w0 & w2 & [= <-] & Hall).
      rewrite (LoaderSpec.require_each_loads require _ _ _ Hall) in Hloop. done.
    + split_and!; [|by left|done].
      split; [|done]. intros _. exists w1, w'. split; [done|].
      by apply (LoaderSpec.require_each_completed require called).
Qed.

End Startup.

(** A process in which a category plugin fails: none of its three files is
    touched. *)
Example startServer_plugin_failure :
  startServer Samples.scan Samples.join_path Samples.load_module
    MoreSamples.plugins_fail "/srv" Samples.config None []
  = ([], [], (inl MoreSamples.plugin_error, [])).
Proof. by vm_compute. Qed.

End LoaderExtra.

(** ** Route announcements *)

Module RouteLogExtra.
Import Fastify RouteLog.

Lemma onRoute_hook_kind r :
  onRoute r ≠ [] ↔ ∃ o, route_config r = Js.Obj o ∧ o !! "kind" = Some (Js.Str "hook").
Proof.
  unfold onRoute, optional_get. split.
  - intros Hlog. destruct (route_config r) as [| | | | |l|o]; try done.
    exists o. split; [done|].
    destruct (o !! "kind") as [v|]; simpl in Hlog; [|done].
    destruct v as [| | | |kind| |]; try done.
    destruct (String.eqb_spec kind "hook") as [Heq|Hne]; [by rewrite Heq|done].
  - intros (o & -> & Hkind). rewrite Hkind. simpl.
    by destruct (truthy (default Js.Undefined (o !! "operationName"))).
Qed.

(** X9. The [onRoute] hook announces a route exactly when its config is an
    object whose [kind] is the string ["hook"], and then once: as an
    operation hook, with the operation name, when [operationName] is
    truthy, and as a global hook otherwise (also for an empty name). A
    route registered by [registerProxyHandler] is never announced. *)
Theorem onRoute_announces_hooks_only :
  (∀ r, onRoute r ≠ []
        ↔ ∃ o, route_config r = Js.Obj o ∧ o !! "kind" = Some (Js.Str "hook"))
  ∧ (∀ r, (length (onRoute r) ≤ 1)%nat)
  ∧ (∀ r d, d ∈ onRoute r →
       match d with
       | RegisteredOperationHook name m url =>
           name = optional_get (route_config r) "operationName"
           ∧ truthy name = true ∧ m = route_method r ∧ url = route_url r
       | RegisteredGlobalHook m url =>
           truthy (optional_get (route_config r) "operationName") = false
           ∧ m = route_method r ∧ url = route_url r
       end)
  ∧ (∀ Endpoint_Proxy replaceUrl path config,
       onRoute (Proxy.proxy_route Endpoint_Proxy replaceUrl path config) = []).
Proof.
  split_and!.
  - apply onRoute_hook_kind.
  - intros r. unfold onRoute.
    destruct (optional_get (route_config r) "kind") as [| | | |kind| |]; simpl; try lia.
    destruct (String.eqb kind "hook"); simpl; [|lia].
    destruct (truthy _); simpl; lia.
  - intros r d. unfold onRoute.
    destruct (optional_get (route_config r) "kind") as [| | | |kind| |];
      try (by intros ?%elem_of_nil).
    destruct (String.eqb kind "hook"); [|by intros ?%elem_of_nil].
    destruct (truthy (optional_get (route_config r) "operationName")) eqn:Ht;
      intros [->|?%elem_of_nil]%elem_of_cons; done.
  - intros Endpoint_Proxy replaceUrl path config.
    unfold onRoute, Proxy.proxy_route, optional_get. simpl.
    by rewrite lookup_insert_eq.
Qed.

Example onRoute_empty_name :
  onRoute (MoreSamples.hook_route
             {["kind" := Js.Str "hook"; "operationName" := Js.Str ""]})
  = [RegisteredGlobalHook ["POST"] "/global/httpTransport/onOriginRequest"]
  ∧ onRoute (MoreSamples.hook_route
               {["kind" := Js.Str "hook"; "operationName" := Js.Str "Orders"]})
    = [RegisteredOperationHook (Js.Str "Orders") ["POST"]
         "/global/httpTransport/onOriginRequest"]
  ∧ onRoute Samples.orders_route = [].
Proof. by vm_compute. Qed.

End RouteLogExtra.

(** ** How a shutdown ends *)

Module ShutdownExtra.
Import Shutdown ShutdownEnds.

(** The line the callback logs after [fastify.close()]. *)
Abbreviation closed_line := (LogInfo "Fireboom hook server is closed").

Lemma in_time_cases delay close :
  in_time delay close = true →
  (∃ ms, close = Resolves ms ∧ (ms < delay)%nat)
  ∨ (∃ ms e, close = Rejects ms e ∧ (ms < delay)%nat).
Proof.
  unfold in_time. destruct close as [ms|ms e|]; [| |done];
    intros Hin%bool_decide_eq_true; [left; by exists ms|right; by exists ms, e].
Qed.

Section CloseWithGrace.
Variable delay : nat.
Variable t : Trigger.
Variable close : Settles.

Abbreviation after := (after delay t close).
Abbreviation draining := (draining t).

(** When [close] does not settle in time, the timer ends the shutdown. *)
Lemma after_timeout :
  in_time delay close = false → after (S delay) = exit 1 (draining delay) [].
Proof.
  intros Hlate.
  assert (after delay = draining delay) as Hd.
  { apply ShutdownSpec.after_draining; [lia|]. unfold in_time in Hlate.
    destruct close; try done; apply bool_decide_eq_false in Hlate; lia. }
  rewrite ShutdownSpec.after_S, Hd. by ShutdownSpec.tick_step.
Qed.

(** The process at every time: waiting, or ended in one of three ways. *)
Lemma after_cases n :
  after n = draining n
  ∨ after n = exit 1 (draining delay) []
  ∨ (∃ ms e, close = Rejects ms e ∧ after n = exit 1 (draining ms) [ConsoleError e])
  ∨ (∃ ms, close = Resolves ms ∧ (ms < delay)%nat ∧ (ms < n)%nat
           ∧ after n = exit (code_done t) (draining ms) [closed_line]).
Proof.
  induction n as [|n IH]; [left; apply ShutdownSpec.after_0|].
  rewrite ShutdownSpec.after_S.
  destruct IH as [Hn|[Hn|[(ms & e & Hc & Hn)|(ms & Hc & Hms & Hlt & Hn)]]]; rewrite Hn.
  - unfold Shutdown.tick. simpl. case_decide; [by right; left|].
    destruct close as [ms|ms e|] eqn:Hc; try case_decide.
    + right; right; right. exists ms. split_and!; [done | lia | lia | done].
    + by left.
    + right; right; left. by exists ms, e.
    + by left.
    + by left.
  - by right; left.
  - right; right; left. by exists ms, e.
  - right; right; right. exists ms. split_and!; [done | done | lia | done].
Qed.

Lemma closed_line_not_first : closed_line ∉ first_log t.
Proof.
  unfold first_log. destruct (err t); [|by intros ?%elem_of_nil].
  by intros [?|?%elem_of_nil]%elem_of_cons.
Qed.

Lemma closed_line_logged n :
  closed_line ∈ log (after n)
  ↔ ∃ ms, close = Resolves ms ∧ (ms < delay)%nat ∧ (ms < n)%nat.
Proof.
  split.
  - intros Hin.
    destruct (after_cases n) as [Hn|[Hn|[(ms & e & Hc & Hn)|(ms & Hc & Hms & Hlt & Hn)]]];
      rewrite Hn in Hin; simpl in Hin.
    + by apply closed_line_not_first in Hin.
    + rewrite app_nil_r in Hin. by apply closed_line_not_first in Hin.
    + apply elem_of_app in Hin as [Hin|Hin]; [by apply closed_line_not_first in Hin|].
      by apply elem_of_cons in Hin as [?|?%elem_of_nil].
    + by exists ms.
  - intros (ms & Hc & Hms & Hlt).
    pose proof (ShutdownSpec.after_resolved delay t close ms Hc Hms) as Hres.
    assert (after n = after (S ms)) as ->.
    { apply ShutdownSpec.after_stable with (code_done t); [by rewrite Hres|lia]. }
    rewrite Hres. simpl. apply elem_of_app. right. apply elem_of_cons. by left.
Qed.

Lemma exit_code_clean :
  phase (after (S delay)) = Closed 0
  ↔ err t = None ∧ ∃ ms, close = Resolves ms ∧ (ms < delay)%nat.
Proof.
  destruct (in_time delay close) eqn:Hin.
  - destruct (in_time_cases _ _ Hin) as [(ms & Hc & Hms)|(ms & e & Hc & Hms)].
    + assert (after (S delay) = after (S ms)) as ->.
      { apply ShutdownSpec.after_stable with (code_done t); [|lia].
        by rewrite (ShutdownSpec.after_resolved delay t close ms). }
      rewrite (ShutdownSpec.after_resolved delay t close ms) by done.
      simpl. unfold code_done. destruct (err t); split.
      * done.
      * by intros [? _].
      * intros _. split; [done|]. by exists ms.
      * done.
    + assert (after (S delay) = after (S ms)) as ->.
      { apply ShutdownSpec.after_stable with 1; [|lia].
        by rewrite (ShutdownSpec.after_rejected delay t close ms e). }
      rewrite (ShutdownSpec.after_rejected delay t close ms e) by done.
      simpl. split; [done|]. intros (_ & ms' & Hc' & _). congruence.
  - rewrite (after_timeout Hin). simpl. split; [done|].
    intros (_ & ms & Hc & Hms). unfold in_time in Hin. rewrite Hc in Hin.
    apply bool_decide_eq_false in Hin. lia.
Qed.

End CloseWithGrace.

(** X10. The line "Fireboom hook server is closed" is in the log exactly
    when [fastify.close()] has resolved, within the grace delay and before
    the time of looking: it is never written for a shutdown that the timer
    forced or in which [close] rejected. *)
Theorem closed_line_means_closed (t : Trigger) (close : Settles) (n : nat) :
  LogInfo "Fireboom hook server is closed" ∈ log (Shutdown.after grace_delay t close n)
  ↔ ∃ ms, close = Resolves ms ∧ (ms < grace_delay)%nat ∧ (ms < n)%nat.
Proof. apply closed_line_logged. Qed.

(** X11. The process exits with code 0 exactly when the shutdown was
    started by a signal, not by an error, and [fastify.close()] resolved
    within the grace delay; every other shutdown exits with code 1. *)
Theorem exit_code_zero_iff_clean (t : Trigger) (close : Settles) :
  (phase (Shutdown.after grace_delay t close (S grace_delay)) = Closed 0
   ↔ err t = None ∧ ∃ ms, close = Resolves ms ∧ (ms < grace_delay)%nat)
  ∧ (phase (Shutdown.after grace_delay t close (S grace_delay)) = Closed 0
     ∨ phase (Shutdown.after grace_delay t close (S grace_delay)) = Closed 1).
Proof.
  split; [apply exit_code_clean|].
  destruct (after_cases grace_delay t close (S grace_delay))
    as [Hn|[Hn|[(ms & e & Hc & Hn)|(ms & Hc & Hms & Hlt & Hn)]]].
  - destruct (ShutdownSpec.after_closed grace_delay t close) as [code Hcode].
    rewrite Hn in Hcode. done.
  - right. by rewrite Hn.
  - right. by rewrite Hn.
  - rewrite Hn. simpl. unfold code_done. destruct (err t); [by right|by left].
Qed.

End ShutdownExtra.

(** ** The health report under registrations *)

Module HealthExtra.
Import Fastify Health HealthRun.

Section WithInstance.
Context {F : Type} `{FastifyInstance F}.
Variable Endpoint_Proxy : string.
Variable replaceUrl : string → gmap string string → string.

Lemma register_proxy_frame path config (w : World F) :
  let w' := (register_proxy Endpoint_Proxy replaceUrl path config w).2 in
  customizeNameList w' = customizeNameList w
  ∧ functionNameList w' = functionNameList w.
Proof.
  unfold register_proxy. by destruct (Proxy.registerProxyHandler _ _ _ _ _).
Qed.

Lemma register_proxies_frame calls : ∀ w : World F,
  let w' := register_proxies Endpoint_Proxy replaceUrl calls w in
  customizeNameList w' = customizeNameList w
  ∧ functionNameList w' = functionNameList w.
Proof.
  induction calls as [|[path config] calls IH]; intros w; [done|]. simpl.
  destruct (IH (register_proxy Endpoint_Proxy replaceUrl path config w).2) as [-> ->].
  apply register_proxy_frame.
Qed.

(** X12. Registering proxies, in any number and whether the calls complete
    or throw, changes nothing of the health report but the [proxys] list:
    the status, the time and the lists of the other categories stay as
    they were. *)
Theorem proxy_registrations_touch_proxys_only (m : Module)
    (calls : list (string * Proxy.ProxyConfig)) (w : World F) (k : string) :
  let w' := register_proxies Endpoint_Proxy replaceUrl calls w in
  FireboomHealthPlugun m w' !! "status" = FireboomHealthPlugun m w !! "status"
  ∧ (k ≠ "proxys" → report m w' !! k = report m w !! k).
Proof.
  intros w'. split; [done|]. intros Hk.
  destruct (register_proxies_frame calls w) as [Hc Hf]. fold w' in Hc, Hf.
  destruct (HealthSpec.report_lookup m w) as (Hc0 & Hf0 & _ & Ht0).
  destruct (HealthSpec.report_lookup m w') as (Hc1 & Hf1 & _ & Ht1).
  destruct (decide (k = "customizes")) as [->|?].
  { rewrite Hc0, Hc1. unfold getCustomizeNameList. by rewrite Hc. }
  destruct (decide (k = "functions")) as [->|?].
  { rewrite Hf0, Hf1. unfold getFunctionNameList. by rewrite Hf. }
  destruct (decide (k = "time")) as [->|?]; [by rewrite Ht0, Ht1|].
  by rewrite !HealthSpec.report_other.
Qed.

End WithInstance.

(** The theorem on a fresh server after two registrations, the second of
    which clashes with the first and throws. *)
Lemma proxy_registrations_touch_proxys_only_sample :
  "customizes" ≠ "proxys"
  ∧ report Samples.loaded_at_boot
      (register_proxies Samples.Endpoint_Proxy Samples.replaceUrl
         [("orders", Samples.echo); ("orders", Samples.echo)] Samples.fresh)
    !! "customizes"
    = report Samples.loaded_at_boot Samples.fresh !! "customizes".
Proof.
  assert ("customizes" ≠ "proxys") as Hk by done.
  split; [exact Hk|].
  by apply (proxy_registrations_touch_proxys_only Samples.Endpoint_Proxy Samples.replaceUrl
              Samples.loaded_at_boot [("orders", Samples.echo); ("orders", Samples.echo)]
              Samples.fresh "customizes").
Defined.

End HealthExtra.
